(** * iosify: the drag-to-dismiss sheet, the portal container and throttle

    A shallow embedding of the three source files of the repository:

    - [src/components/Sheet/index.tsx]: the handlers [startDrag], [dragMove]
      and [endDrag] of the [Sheet] component, as functions on the component
      state (the [dragState] and [overlayOpacity] hooks, the host's
      [isOpened] flag, the inline style of the content element and the
      callbacks queued with [setTimeout]);
    - [src/HOCs/withPortal.tsx]: [createDiv], as a function on a document;
    - the [throttle] utility, as a function on the closure's [lastCall]
      cell and the world the callback acts on.

    Numbers.  A JavaScript number is modelled by [JS.num]: an exact rational,
    or one of the three special values [+Infinity], [-Infinity] and [NaN],
    with the IEEE-754 rules for the special values (so [x / 0] is an
    infinity or [NaN], and every comparison with [NaN] is false).  Rounding
    is abstracted: arithmetic on finite values is exact.  The model has one
    zero, which stands for [+0]: every divisor of the program that can be
    zero ([totalTime], [window.innerHeight * 0.5]) is [+0] when it is.
    Finite values are unbounded, so the model has no overflow, and a value
    the code rounds across a threshold sits on its exact side here; the
    theorems about whole sessions are therefore stated in the operations of
    the handlers ([+], [-], [/], [Math.abs], [>]) and claim neither that a
    result stays finite nor on which side of a threshold a quotient falls.

    Environment.  [window.innerHeight] and the reading of [Date.now()] are
    arguments of the handlers that use them.  In [Sheet], a handler sees
    the state of the latest render: the state it reads from its closure and
    the [prev] of a functional [setDragState] are the same value, as for the
    handlers of the content element.  [SheetLifecycle] and [SheetComponent]
    add the closures that are older than the latest render: the listeners
    the component keeps on the document, with the effect that attaches and
    removes them. *)

From Stdlib Require Import QArith Qabs Qminmax Lqa Lia List String Bool ZArith.
Import ListNotations.

Set Implicit Arguments.

(* ================================================================== *)
(** ** JavaScript numbers *)
(* ================================================================== *)

Module JS.

Inductive num : Type :=
| Fin (q : Q)
| PInf
| NInf
| NaN.

Definition Qltb (x y : Q) : bool :=
  match x ?= y with Lt => true | _ => false end.

Definition Qleb (x y : Q) : bool :=
  match x ?= y with Gt => false | _ => true end.

(** [-a] *)
Definition neg (a : num) : num :=
  match a with
  | Fin x => Fin (- x)
  | PInf => NInf
  | NInf => PInf
  | NaN => NaN
  end.

(** [a + b] *)
Definition add (a b : num) : num :=
  match a, b with
  | NaN, _ | _, NaN => NaN
  | Fin x, Fin y => Fin (x + y)
  | PInf, NInf | NInf, PInf => NaN
  | PInf, _ | _, PInf => PInf
  | NInf, _ | _, NInf => NInf
  end.

(** [a - b] *)
Definition sub (a b : num) : num := add a (neg b).

(** The sign of an infinity times or over a finite factor. *)
Definition signed_inf (positive : bool) (x : Q) : num :=
  match x ?= 0 with
  | Gt => if positive then PInf else NInf
  | Lt => if positive then NInf else PInf
  | Eq => NaN
  end.

(** [a * b] *)
Definition mul (a b : num) : num :=
  match a, b with
  | NaN, _ | _, NaN => NaN
  | Fin x, Fin y => Fin (x * y)
  | Fin x, PInf | PInf, Fin x => signed_inf true x
  | Fin x, NInf | NInf, Fin x => signed_inf false x
  | PInf, PInf | NInf, NInf => PInf
  | PInf, NInf | NInf, PInf => NInf
  end.

(** [a / b]: a finite value over zero is an infinity of its sign, and
    [0 / 0] is [NaN]. *)
Definition div (a b : num) : num :=
  match a, b with
  | NaN, _ | _, NaN => NaN
  | Fin x, Fin y =>
      match y ?= 0 with
      | Eq => signed_inf true x
      | _ => Fin (x / y)
      end
  | Fin _, PInf | Fin _, NInf => Fin 0
  | PInf, Fin y => if Qltb y 0 then NInf else PInf
  | NInf, Fin y => if Qltb y 0 then PInf else NInf
  | _, _ => NaN
  end.

(** [Math.abs(a)] *)
Definition abs (a : num) : num :=
  match a with
  | Fin x => Fin (Qabs x)
  | PInf | NInf => PInf
  | NaN => NaN
  end.

(** [a < b]; false as soon as one side is [NaN]. *)
Definition ltb (a b : num) : bool :=
  match a, b with
  | NaN, _ | _, NaN => false
  | Fin x, Fin y => Qltb x y
  | _, NInf => false
  | NInf, _ => true
  | PInf, _ => false
  | _, PInf => true
  end.

(** [a > b] *)
Definition gtb (a b : num) : bool := ltb b a.

(** [a <= b]; false as soon as one side is [NaN]. *)
Definition leb (a b : num) : bool :=
  match a, b with
  | NaN, _ | _, NaN => false
  | Fin x, Fin y => Qleb x y
  | NInf, _ => true
  | _, PInf => true
  | _, NInf => false
  | PInf, _ => false
  end.

(** [a >= b] *)
Definition geb (a b : num) : bool := leb b a.

(** [Math.max(a, b)]: [NaN] if either argument is. *)
Definition max (a b : num) : num :=
  match a, b with
  | NaN, _ | _, NaN => NaN
  | _, _ => if ltb a b then b else a
  end.

(** Truthiness of a number: [0] and [NaN] are falsy. *)
Definition truthy (a : num) : bool :=
  match a with
  | Fin x => negb (Qeq_bool x 0)
  | PInf | NInf => true
  | NaN => false
  end.

(** [a || b] for [a : number | null]. *)
Definition or_else (a : option num) (b : num) : num :=
  match a with
  | Some x => if truthy x then x else b
  | None => b
  end.

(** The same number: rationals are compared by value. *)
Definition eqv (a b : num) : Prop :=
  match a, b with
  | Fin x, Fin y => x == y
  | PInf, PInf | NInf, NInf | NaN, NaN => True
  | _, _ => False
  end.

Definition finite (a : num) : Prop :=
  match a with Fin _ => True | _ => False end.

End JS.

Declare Scope js_scope.
Delimit Scope js_scope with js.
Bind Scope js_scope with JS.num.
Infix "+" := JS.add : js_scope.
Infix "-" := JS.sub : js_scope.
Infix "*" := JS.mul : js_scope.
Infix "/" := JS.div : js_scope.
Infix "<?" := JS.ltb : js_scope.
Infix ">?" := JS.gtb : js_scope.
Infix ">=?" := JS.geb : js_scope.
Infix "==" := JS.eqv : js_scope.
Notation "a < b" := (JS.ltb a b = true) : js_scope.
Notation "a > b" := (JS.gtb a b = true) : js_scope.
Notation "a <= b" := (JS.leb a b = true) : js_scope.
Notation "a >= b" := (JS.geb a b = true) : js_scope.

Coercion JS.Fin : Q >-> JS.num.

(* ================================================================== *)
(** ** The Sheet component *)
(* ================================================================== *)

Module Sheet.

Import JS.
Local Open Scope js_scope.

Inductive Direction : Type := up | down.

Definition Direction_eqb (a b : option Direction) : bool :=
  match a, b with
  | Some up, Some up | Some down, Some down | None, None => true
  | _, _ => false
  end.

(** The object held by the [dragState] hook. *)
Record DragState : Type := mkDragState {
  startY : option num;
  currentY : option num;
  startTime : option num;
  isDragging : bool;
  direction : option Direction;
  totalDistance : num;
  totalTime : num
}.

(** [style.transform] of the content element. *)
Inductive Transform : Type :=
| transform_empty                 (* '' *)
| translateY_px (offset : num)    (* `translateY(${offset}px) translateZ(0)` *)
| translateY_100pct.              (* 'translateY(100%) translateZ(0)' *)

(** [style.transition] of the content element. *)
Inductive Transition : Type :=
| transition_empty                (* '' *)
| transition_unset                (* 'unset' *)
| transition_ease.                (* 'transform .3s ease' *)

Record Style : Type := mkStyle {
  transform : Transform;
  transition : Transition
}.

(** The state of one mounted sheet.  [contentRef] is [None] while
    [contentRef.current] is null.  [timers] holds the callbacks queued with
    [setTimeout(.., 10)], oldest first; each one assigns the transform it
    carries. *)
Record State : Type := mkState {
  dragState : DragState;
  overlayOpacity : num;
  isOpened : bool;
  contentRef : option Style;
  timers : list Transform
}.

Definition setDragState (d : DragState) (s : State) : State :=
  mkState d (overlayOpacity s) (isOpened s) (contentRef s) (timers s).

Definition setOverlayOpacity (o : num) (s : State) : State :=
  mkState (dragState s) o (isOpened s) (contentRef s) (timers s).

Definition setIsOpened (b : bool) (s : State) : State :=
  mkState (dragState s) (overlayOpacity s) b (contentRef s) (timers s).

(** [if (contentRef.current) contentRef.current.style.transition = t] *)
Definition setTransition (t : Transition) (s : State) : State :=
  match contentRef s with
  | Some st =>
      mkState (dragState s) (overlayOpacity s) (isOpened s)
        (Some (mkStyle (transform st) t)) (timers s)
  | None => s
  end.

(** [if (contentRef.current) contentRef.current.style.transform = t] *)
Definition setTransform (t : Transform) (s : State) : State :=
  match contentRef s with
  | Some st =>
      mkState (dragState s) (overlayOpacity s) (isOpened s)
        (Some (mkStyle t (transition st))) (timers s)
  | None => s
  end.

(** [if (contentRef.current) { style.transition = 'transform .3s ease';
    setTimeout(() => style.transform = t, 10) }] *)
Definition animateTo (t : Transform) (s : State) : State :=
  match contentRef s with
  | Some st =>
      mkState (dragState s) (overlayOpacity s) (isOpened s)
        (Some (mkStyle (transform st) transition_ease)) (timers s ++ [t])
  | None => s
  end.

(** The value [endDrag] passes to [setDragState]; [startDrag] differs from
    it in [startY], [startTime] and [isDragging] only. *)
Definition emptyDragState : DragState :=
  mkDragState None None None false None (Fin 0) (Fin 0).

(** [startDrag(y)], with [now] the reading of [Date.now()]. *)
Definition startDrag (now y : num) (s : State) : State :=
  setTransition transition_unset
    (setDragState
       (mkDragState (Some y) None (Some now) true None (Fin 0) (Fin 0)) s).

(** Lines 64-69 of [dragMove]: the offset written into the transform. *)
Definition adjustedDragDistance (innerHeight dragDistance : num) : num :=
  let resistance : num := Fin 0.1 in
  let maxUpwardDrag := innerHeight * Fin 0.01 in
  if dragDistance >? Fin 0
  then dragDistance
  else max (neg maxUpwardDrag) (dragDistance * resistance).

(** Lines 82-85 of [dragMove]: the opacity given to the overlay. *)
Definition dragOpacity (innerHeight dragDistance : num) : num :=
  let maxDragDistance := innerHeight * Fin 0.5 in
  if dragDistance >? Fin 0
  then max (Fin 0) (Fin 1 - abs dragDistance / maxDragDistance)
  else Fin 1.

(** [dragMove(y)] *)
Definition dragMove (innerHeight now y : num) (s : State) : State :=
  let prev := dragState s in
  match isDragging prev, startY prev with
  | true, Some _ =>
      let dragDistance := y - or_else (startY prev) (Fin 0) in
      let dir := if dragDistance >? Fin 0 then down else up in
      let next :=
        mkDragState
          (startY prev)
          (Some y)
          (startTime prev)
          (isDragging prev)
          (Some dir)
          (totalDistance prev + abs (y - or_else (currentY prev) y))
          ((now - or_else (startTime prev) now) / Fin 1000) in
      setTransform (translateY_px (adjustedDragDistance innerHeight dragDistance))
        (setOverlayOpacity (dragOpacity innerHeight dragDistance)
           (setDragState next s))
  | _, _ => s
  end.

(** The three branches of the conditional of [endDrag]. *)
Inductive Decision : Type := Close | Reopen | SnapBack.

(** Lines 97-121 of [endDrag]: which branch the conditional takes. *)
Definition releaseDecision (innerHeight sY cY : num) (d : DragState) : Decision :=
  let dragDistance := cY - sY in
  let screenHeight := innerHeight in
  let velocity := totalDistance d / totalTime d in
  let threshold := screenHeight / Fin 2 in
  let fastCloseThreshold : num := Fin 500 in
  if ((dragDistance >? threshold) || (velocity >? fastCloseThreshold))
     && Direction_eqb (direction d) (Some down)
  then Close
  else if Direction_eqb (direction d) (Some up)
          && (dragDistance <? threshold)
          && (velocity >? fastCloseThreshold)
  then Reopen
  else SnapBack.

(** [endDrag()] *)
Definition endDrag (innerHeight : num) (s : State) : State :=
  let d := dragState s in
  match isDragging d, startY d, currentY d, startTime d with
  | true, Some sY, Some cY, Some _ =>
      let s1 :=
        match releaseDecision innerHeight sY cY d with
        | Close => animateTo translateY_100pct (setIsOpened false s)
        | Reopen => animateTo transform_empty (setIsOpened true s)
        | SnapBack => animateTo transform_empty s
        end in
      setOverlayOpacity (Fin 1) (setDragState emptyDragState s1)
  | _, _, _, _ => s
  end.

(** Pointer events of one sheet, each with what the handler reads from the
    environment. *)
Inductive Event : Type :=
| Press (now y : num)
| Move (now y : num)
| Release.

Definition handle (innerHeight : num) (s : State) (e : Event) : State :=
  match e with
  | Press now y => startDrag now y s
  | Move now y => dragMove innerHeight now y s
  | Release => endDrag innerHeight s
  end.

Definition run (innerHeight : num) (s : State) (es : list Event) : State :=
  fold_left (handle innerHeight) es s.

(** A sheet as it is mounted: the initial values of the hooks, the content
    element attached with no inline style. *)
Definition mounted (opened : bool) : State :=
  mkState emptyDragState (Fin 0) opened
    (Some (mkStyle transform_empty transition_empty)) [].

(** An active session with a start position, a current position and a start
    time: the sessions [endDrag] acts on. *)
Definition active (s : State) (sY cY t0 : num) : Prop :=
  isDragging (dragState s) = true /\
  startY (dragState s) = Some sY /\
  currentY (dragState s) = Some cY /\
  startTime (dragState s) = Some t0.

(** A press at [start] followed by move events, each with its clock reading
    and its position. *)
Definition pressAndMoves
    (now0 : num) (start : Q) (moves : list (num * Q)) : list Event :=
  Press now0 (Fin start) :: map (fun m => Move (fst m) (Fin (snd m))) moves.

Local Open Scope Q_scope.

(** The sum of the absolute differences between neighbours of the sequence
    [prev, p1, p2, ...]. *)
Fixpoint sumAbsDeltas (prev : Q) (ps : list Q) : Q :=
  match ps with
  | [] => 0
  | p :: ps => Qabs (p - prev) + sumAbsDeltas p ps
  end.

(** The differences between neighbours of the sequence [prev, p1, p2, ...]. *)
Fixpoint deltas (prev : Q) (ps : list Q) : list Q :=
  match ps with
  | [] => []
  | p :: ps => (p - prev) :: deltas p ps
  end.

(** The accumulated distance as the specification words it: every sample
    adds its absolute difference from the sample before it, the first one
    its full distance from the start position. *)
Definition spec_accumulatedDistance (start : Q) (ps : list Q) : Q :=
  sumAbsDeltas start ps.

(** The sum of the absolute differences between consecutive samples alone:
    [|p2 - p1| + ... + |pN - p(N-1)|]. *)
Definition sampleDistance (ps : list Q) : Q :=
  match ps with
  | [] => 0
  | p1 :: ps => sumAbsDeltas p1 ps
  end.

(** The differences between consecutive samples. *)
Definition sampleDeltas (ps : list Q) : list Q :=
  match ps with
  | [] => []
  | p1 :: ps => deltas p1 ps
  end.

(** Events whose pointer coordinate is a finite number. *)
Definition finiteEvent (e : Event) : Prop :=
  match e with
  | Press _ y | Move _ y => finite y
  | Release => True
  end.

(** The distance travelled is a finite non-negative number and the recorded
    position, if any, is finite. *)
Definition measured (s : State) : Prop :=
  (exists td : Q, totalDistance (dragState s) = Fin td /\ (0 <= td)%Q) /\
  (forall c : num, currentY (dragState s) = Some c -> finite c).

(** Sample sessions on a viewport 700 pixels high. *)

(** Pressed at 100 and dragged down to 500 in 32 ms. *)
Definition fastPull : State :=
  run (Fin 700) (mounted true)
    (pressAndMoves (Fin 1000) 100 [(Fin 1016, 300); (Fin 1032, 500)]).

(** Pressed at 100, then moved to 105 and to 110 before the clock ticks. *)
Definition sameTickPull : State :=
  run (Fin 700) (mounted true)
    (pressAndMoves (Fin 1000) 100 [(Fin 1000, 105); (Fin 1000, 110)]).

(** Pressed at 100 and not moved. *)
Definition pressedOnly : State :=
  run (Fin 700) (mounted true) (pressAndMoves (Fin 1000) 100 []).

End Sheet.

(* ================================================================== *)
(** ** The portal container *)
(* ================================================================== *)

Module Portal.

Local Open Scope string_scope.

(** An element of the page; [node] is its identity as an object. *)
Record Element : Type := mkElement {
  node : nat;
  tagName : string;
  id : string;
  className : string
}.

(** The page: its elements in document order, the identity the next created
    element receives, and what was written to the console ([None] for
    [null]). *)
Record Page : Type := mkPage {
  elements : list Element;
  nextNode : nat;
  console : list (option Element)
}.

(** [document.querySelector('#' + i)]: the first element, in document order,
    whose id is [i]. *)
Definition querySelector_id (i : string) (p : Page) : option Element :=
  find (fun e => String.eqb (id e) i) (elements p).

(** How many elements of the page carry the id [i]. *)
Definition count_id (i : string) (p : Page) : nat :=
  List.length (filter (fun e => String.eqb (id e) i) (elements p)).

Section WithStyles.

(** [styles.iosify], the class name the style module exports. *)
Variable styles_iosify : string.

(** [createDiv()] *)
Definition createDiv (p : Page) : Page * Element :=
  let div := querySelector_id "iosify" p in
  let p := mkPage (elements p) (nextNode p) (console p ++ [div]) in
  match div with
  | Some div => (p, div)
  | None =>
      let div := mkElement (nextNode p) "div" "iosify" styles_iosify in
      (mkPage (elements p ++ [div]) (S (nextNode p)) (console p), div)
  end.

(** The containers handed to [createPortal] by [n] renders of a component
    wrapped with [withPortal], and the page they leave. *)
Fixpoint renders (n : nat) (p : Page) : Page * list Element :=
  match n with
  | O => (p, [])
  | S n =>
      let (p1, container) := createDiv p in
      let (p2, rest) := renders n p1 in
      (p2, container :: rest)
  end.

End WithStyles.

End Portal.

(* ================================================================== *)
(** ** throttle *)
(* ================================================================== *)

Module Throttle.

Import JS.
Local Open Scope js_scope.

Section WithCallback.

(** The arguments of the callback, the world it acts on, and the callback. *)
Variables (A W : Type) (callback : A -> W -> W).

(** What a call of the returned function can change: the [lastCall]
    variable of its closure and the callback's world. *)
Record Closure : Type := mkClosure {
  lastCall : num;
  world : W
}.

(** [throttle(callback, delay)]: the closure starts with [lastCall = 0]. *)
Definition throttle (w : W) : Closure := mkClosure (Fin 0) w.

(** One call [(...args) => { ... }] of the returned function, with [now] the
    reading of [new Date().getTime()]. *)
Definition call (delay now : num) (args : A) (c : Closure) : Closure :=
  if (now - lastCall c) >=? delay
  then mkClosure now (callback args (world c))
  else c.

(** Successive calls, each with its clock reading and arguments. *)
Definition calls (delay : num) (c : Closure) (l : list (num * A)) : Closure :=
  fold_left (fun c na => call delay (fst na) (snd na) c) l c.

End WithCallback.

(** A callback that appends its argument to a log; called with the clock
    reading as argument, the log is the list of times the callback ran. *)
Definition record (t : Q) (log : list Q) : list Q := log ++ [t].

Definition invokedAt (delay : num) (times : list Q) : list Q :=
  world (calls record delay (throttle [])
           (map (fun t => (Fin t, t)) times)).

End Throttle.


(* ================================================================== *)
(** ** The sheet between events: effects, timers and closures *)
(* ================================================================== *)

Module SheetLifecycle.

Import JS Sheet.
Local Open Scope js_scope.

(** [document.body.style.overflow], as the component writes it. *)
Inductive Overflow : Type :=
| overflow_empty                  (* '' *)
| overflow_hidden.                (* 'hidden' *)

(** A sheet and the part of the page around it that the component writes. *)
Record Window : Type := mkWindow {
  sheet : State;
  bodyOverflow : Overflow
}.

(** The body of the effect on [isOpened], lines 27-41. *)
Definition openedEffect (w : Window) : Window :=
  if isOpened (sheet w)
  then
    mkWindow
      (setTransition transition_ease
         (setTransform transform_empty
            (setOverlayOpacity (Fin 1) (sheet w))))
      overflow_hidden
  else
    mkWindow
      (setTransition transition_ease
         (setTransform transform_empty
            (setOverlayOpacity (Fin 0) (sheet w))))
      overflow_empty.

(** The render that follows an update: the effect, whose dependencies are
    [[isOpened]], runs when [isOpened] differs from its value at the render
    before. *)
Definition commit (openedBefore : bool) (w : Window) : Window :=
  if Bool.eqb openedBefore (isOpened (sheet w)) then w else openedEffect w.

(** A pointer event: its handler, then the render. *)
Definition dispatch (innerHeight : num) (w : Window) (e : Event) : Window :=
  commit (isOpened (sheet w))
    (mkWindow (handle innerHeight (sheet w) e) (bodyOverflow w)).

(** The callback of a timer, [contentRef.current!.style.transform = t]: a
    [TypeError] ([None]) when [contentRef.current] is null. *)
Definition timerCallback (t : Transform) (s : State) : option State :=
  match contentRef s with
  | Some st =>
      Some (mkState (dragState s) (overlayOpacity s) (isOpened s)
              (Some (mkStyle t (transition st))) (timers s))
  | None => None
  end.

Fixpoint runTimers (ts : list Transform) (s : State) : option State :=
  match ts with
  | [] => Some s
  | t :: ts =>
      match timerCallback t s with
      | Some s' => runTimers ts s'
      | None => None
      end
  end.

(** The queued timers fire, oldest first, and leave the queue. *)
Definition flushTimers (w : Window) : option Window :=
  let s := sheet w in
  match runTimers (timers s)
          (mkState (dragState s) (overlayOpacity s) (isOpened s)
             (contentRef s) [])
  with
  | Some s' => Some (mkWindow s' (bodyOverflow w))
  | None => None
  end.

(** [dragMove(y)] as a closure runs it: the guard and the drag distance read
    the [dragState] the closure was created with ([seen]); the functional
    update reads the current one ([prev]). *)
Definition dragMoveFrom
    (seen : DragState) (innerHeight now y : num) (s : State) : State :=
  match isDragging seen, startY seen with
  | true, Some _ =>
      let dragDistance := y - or_else (startY seen) (Fin 0) in
      let dir := if dragDistance >? Fin 0 then down else up in
      let prev := dragState s in
      let next :=
        mkDragState
          (startY prev)
          (Some y)
          (startTime prev)
          (isDragging prev)
          (Some dir)
          (totalDistance prev + abs (y - or_else (currentY prev) y))
          ((now - or_else (startTime prev) now) / Fin 1000) in
      setTransform (translateY_px (adjustedDragDistance innerHeight dragDistance))
        (setOverlayOpacity (dragOpacity innerHeight dragDistance)
           (setDragState next s))
  | _, _ => s
  end.

(** [endDrag()] as a closure runs it: every read is of the [dragState] the
    closure was created with. *)
Definition endDragFrom
    (seen : DragState) (innerHeight : num) (s : State) : State :=
  match isDragging seen, startY seen, currentY seen, startTime seen with
  | true, Some sY, Some cY, Some _ =>
      let s1 :=
        match releaseDecision innerHeight sY cY seen with
        | Close => animateTo translateY_100pct (setIsOpened false s)
        | Reopen => animateTo transform_empty (setIsOpened true s)
        | SnapBack => animateTo transform_empty s
        end in
      setOverlayOpacity (Fin 1) (setDragState emptyDragState s1)
  | _, _, _, _ => s
  end.

(** Events other than a press. *)
Definition notPress (e : Event) : Prop :=
  match e with
  | Press _ _ => False
  | Move _ _ | Release => True
  end.

(** A drag state is either the empty one or a session with its start
    position and start time, whose direction is set exactly when a position
    has been recorded. *)
Definition sessionShape (d : DragState) : Prop :=
  if isDragging d
  then startY d <> None /\ startTime d <> None /\
       (currentY d = None <-> direction d = None)
  else d = emptyDragState.

(** Two states that differ at most in the representation of the numbers
    [totalDistance] and [totalTime]. *)
Definition sameState (a b : State) : Prop :=
  startY (dragState a) = startY (dragState b) /\
  currentY (dragState a) = currentY (dragState b) /\
  startTime (dragState a) = startTime (dragState b) /\
  isDragging (dragState a) = isDragging (dragState b) /\
  direction (dragState a) = direction (dragState b) /\
  totalDistance (dragState a) == totalDistance (dragState b) /\
  totalTime (dragState a) == totalTime (dragState b) /\
  overlayOpacity a = overlayOpacity b /\
  isOpened a = isOpened b /\
  contentRef a = contentRef b /\
  timers a = timers b.

End SheetLifecycle.

(* ================================================================== *)
(** ** The mounted component: the content's handlers and the document's *)
(* ================================================================== *)

Module SheetComponent.

Import JS Sheet SheetLifecycle.
Local Open Scope js_scope.

(** A mounted sheet with the page around it and the pair of listeners
    ([mousemove], [mouseup]) the effect on [dragState.isDragging], lines
    161-178, keeps on the document: [docListeners] is the [dragState] of the
    render whose closure the pair holds, [None] while no pair is attached.
    The effect attaches a pair when [isDragging] turns true and its cleanup
    removes it when [isDragging] turns false, so a mounted sheet never has
    two. *)
Record Component : Type := mkComponent {
  window : Window;
  docListeners : option DragState
}.

(** What reaches the component: an event on the content element, handled by
    the handlers of the latest render (lines 144-158 and 190-196); a
    [mousemove] or a [mouseup] reaching the document; a call of the setter
    of the visibility flag (by the host, or by the click handler of the
    overlay with [false]). *)
Inductive DomEvent : Type :=
| OnContent (e : Event)
| DocumentMouseMove (now y : num)
| DocumentMouseUp
| SetIsOpened (b : bool).

Definition drag (c : Component) : DragState := dragState (sheet (window c)).

Definition onSheet (f : State -> State) (c : Component) : Component :=
  mkComponent
    (mkWindow (f (sheet (window c))) (bodyOverflow (window c)))
    (docListeners c).

(** The handler of the event.  The listeners of the document run [dragMove]
    and [endDrag] from their closure; the [mouseup] listener then removes
    the pair (lines 164-168). *)
Definition deliver (innerHeight : num) (c : Component) (e : DomEvent) : Component :=
  match e with
  | OnContent ev => onSheet (fun s => handle innerHeight s ev) c
  | DocumentMouseMove now y =>
      match docListeners c with
      | Some seen => onSheet (dragMoveFrom seen innerHeight now y) c
      | None => c
      end
  | DocumentMouseUp =>
      match docListeners c with
      | Some seen =>
          mkComponent (window (onSheet (endDragFrom seen innerHeight) c)) None
      | None => c
      end
  | SetIsOpened b => onSheet (setIsOpened b) c
  end.

(** The render after a handler, with the two effects: the one on [isOpened]
    and the one on [dragState.isDragging], each run when its dependency
    differs from its value at the render before ([before]). *)
Definition render (before c : Component) : Component :=
  mkComponent
    (commit (isOpened (sheet (window before))) (window c))
    (if Bool.eqb (isDragging (drag before)) (isDragging (drag c))
     then docListeners c
     else if isDragging (drag c) then Some (drag c) else None).

Definition step (innerHeight : num) (c : Component) (e : DomEvent) : Component :=
  render c (deliver innerHeight c e).

Definition play (innerHeight : num) (c : Component) (es : list DomEvent) : Component :=
  fold_left (step innerHeight) es c.

(** The component after its first render and the effects that follow it;
    [body] is the overflow the body had. *)
Definition mount (opened : bool) (body : Overflow) : Component :=
  mkComponent (openedEffect (mkWindow (mounted opened) body)) None.


(** Pointer moves, on the content or reaching the document. *)
Definition pointerMove (e : DomEvent) : Prop :=
  match e with
  | OnContent (Move _ _) | DocumentMouseMove _ _ => True
  | _ => False
  end.

(** Events whose pointer coordinate is a finite number. *)
Definition finiteDomEvent (e : DomEvent) : Prop :=
  match e with
  | OnContent ev => finiteEvent ev
  | DocumentMouseMove _ y => finite y
  | DocumentMouseUp | SetIsOpened _ => True
  end.






(** The closure of a pair of listeners, as the effect creates it: the drag
    state right after a press. *)
Definition pressed (seen : DragState) : Prop :=
  isDragging seen = true /\ startY seen <> None /\ currentY seen = None.

(** What every reachable component satisfies. *)
Definition wellFormed (c : Component) : Prop :=
  sessionShape (drag c) /\
  (forall seen : DragState,
      docListeners c = Some seen ->
      isDragging (drag c) = true /\ pressed seen).



End SheetComponent.

(* ================================================================== *)
(** ** Traces of throttled calls *)
(* ================================================================== *)

Module ThrottleTrace.

Local Open Scope Q_scope.

(** Each reading of the list is at least [delay] after the one before it,
    the first one after [last]. *)
Fixpoint spaced (delay last : Q) (ts : list Q) : Prop :=
  match ts with
  | [] => True
  | t :: ts => delay <= t - last /\ spaced delay t ts
  end.

(** [l] is [m] with some elements dropped. *)
Fixpoint subsequence (A : Type) (l m : list A) : Prop :=
  match l, m with
  | [], _ => True
  | _ :: _, [] => False
  | x :: l', y :: m' => (x = y /\ subsequence l' m') \/ subsequence l m'
  end.

(** The readings never go back and start at [from] or later. *)
Fixpoint ascending (from : Q) (ts : list Q) : Prop :=
  match ts with
  | [] => True
  | t :: ts => from <= t /\ ascending t ts
  end.

End ThrottleTrace.


(* ================================================================== *)
(** ** Facts about the numbers *)
(* ================================================================== *)

Module JSFacts.

Import JS.
Local Open Scope Q_scope.

Lemma Qltb_true (x y : Q) : Qltb x y = true <-> x < y.
Proof.
  unfold Qltb. rewrite Qlt_alt.
  destruct (x ?= y); split; congruence.
Qed.

Lemma Qltb_false (x y : Q) : Qltb x y = false <-> y <= x.
Proof.
  rewrite <- Bool.not_true_iff_false, Qltb_true.
  split; [apply Qnot_lt_le | apply Qle_not_lt].
Qed.

Lemma Qleb_true (x y : Q) : Qleb x y = true <-> x <= y.
Proof.
  unfold Qleb. rewrite Qle_alt.
  destruct (x ?= y); split; congruence.
Qed.

Lemma Qleb_false (x y : Q) : Qleb x y = false <-> y < x.
Proof.
  rewrite <- Bool.not_true_iff_false, Qleb_true.
  split; [apply Qnot_le_lt | apply Qlt_not_le].
Qed.

Lemma Qcompare_Eq (x y : Q) : (x ?= y) = Eq <-> x == y.
Proof. symmetry. apply Qeq_alt. Qed.

Lemma Qcompare_Lt (x y : Q) : (x ?= y) = Lt <-> x < y.
Proof. symmetry. apply Qlt_alt. Qed.

Lemma Qcompare_Gt (x y : Q) : (x ?= y) = Gt <-> y < x.
Proof. symmetry. apply Qgt_alt. Qed.

(** Case analysis on a comparison of rationals, with the order fact. *)
Lemma Qcompare_cases (x y : Q) :
  ((x ?= y) = Lt /\ x < y) \/ ((x ?= y) = Eq /\ x == y) \/ ((x ?= y) = Gt /\ y < x).
Proof.
  destruct (x ?= y) eqn:E.
  - right; left; split; [reflexivity | now apply Qcompare_Eq].
  - left; split; [reflexivity | now apply Qcompare_Lt].
  - right; right; split; [reflexivity | now apply Qcompare_Gt].
Qed.

Lemma eqv_refl (a : num) : eqv a a.
Proof. destruct a; simpl; auto. reflexivity. Qed.

Lemma eqv_sym (a b : num) : eqv a b -> eqv b a.
Proof. destruct a, b; simpl; auto. intros H; now rewrite H. Qed.

Lemma eqv_trans (a b c : num) : eqv a b -> eqv b c -> eqv a c.
Proof.
  destruct a, b, c; simpl; auto; try contradiction.
  intros H1 H2; now rewrite H1.
Qed.

Lemma truthy_Fin (x : Q) : truthy (Fin x) = true <-> ~ x == 0.
Proof.
  simpl. rewrite Bool.negb_true_iff, <- Bool.not_true_iff_false, Qeq_bool_iff.
  tauto.
Qed.

(** [a || b] keeps a finite non-zero [a]. *)
Lemma or_else_nonzero (x : Q) (b : num) :
  ~ x == 0 -> or_else (Some (Fin x)) b = Fin x.
Proof.
  intros H. unfold or_else.
  now apply truthy_Fin in H; rewrite H.
Qed.

(** [a || b] replaces a zero [a], as it replaces [null]. *)
Lemma or_else_zero (x : Q) (b : num) :
  x == 0 -> or_else (Some (Fin x)) b = b.
Proof.
  intros H. unfold or_else, truthy.
  apply Qeq_bool_iff in H. now rewrite H.
Qed.

(** [x || 0] is [x] for every finite [x]. *)
Lemma or_else_default_zero (x : Q) : eqv (or_else (Some (Fin x)) (Fin 0)) (Fin x).
Proof.
  unfold or_else, truthy.
  destruct (Qeq_bool x 0) eqn:E; simpl.
  - apply Qeq_bool_iff in E. now rewrite E.
  - reflexivity.
Qed.

(** [Math.abs(y - y)] is zero for a finite [y]. *)
Lemma abs_sub_self (y : Q) : eqv (abs (sub (Fin y) (Fin y))) (Fin 0).
Proof.
  unfold sub, neg, add, abs, eqv.
  rewrite Qplus_opp_r. reflexivity.
Qed.

End JSFacts.

(* ================================================================== *)
(** ** The release of a drag *)
(* ================================================================== *)

Module SheetRelease.

Import JS Sheet JSFacts.
Local Open Scope js_scope.

Lemma endDrag_active (innerHeight : num) (s : State) (sY cY t0 : num) :
  active s sY cY t0 ->
  endDrag innerHeight s =
  setOverlayOpacity (Fin 1)
    (setDragState emptyDragState
       match releaseDecision innerHeight sY cY (dragState s) with
       | Close => animateTo translateY_100pct (setIsOpened false s)
       | Reopen => animateTo transform_empty (setIsOpened true s)
       | SnapBack => animateTo transform_empty s
       end).
Proof.
  intros (Hd & Hs & Hc & Ht). unfold endDrag.
  now rewrite Hd, Hs, Hc, Ht.
Qed.

Lemma isOpened_animateTo (t : Transform) (s : State) :
  isOpened (animateTo t s) = isOpened s.
Proof. unfold animateTo. now destruct (contentRef s). Qed.

Lemma dragState_animateTo (t : Transform) (s : State) :
  dragState (animateTo t s) = dragState s.
Proof. unfold animateTo. now destruct (contentRef s). Qed.

Lemma Direction_eqb_eq (a b : option Direction) :
  Direction_eqb a b = true <-> a = b.
Proof.
  destruct a as [[|]|], b as [[|]|]; simpl; split; congruence.
Qed.

(** The branch taken by the conditional of [endDrag], by its conditions. *)
Lemma releaseDecision_iff (innerHeight sY cY : num) (d : DragState) :
  let netDisplacement := cY - sY in
  let threshold := innerHeight / Fin 2 in
  let averageVelocity := totalDistance d / totalTime d in
  let closes :=
    direction d = Some down /\
    (netDisplacement > threshold \/ averageVelocity > Fin 500) in
  let reopens :=
    direction d = Some up /\
    netDisplacement < threshold /\ averageVelocity > Fin 500 in
  let decision := releaseDecision innerHeight sY cY d in
  (decision = Close <-> closes) /\
  (decision = Reopen <-> reopens) /\
  (decision = SnapBack <-> ~ closes /\ ~ reopens).
Proof.
  intros netDisplacement threshold averageVelocity closes reopens decision.
  subst closes reopens decision. unfold releaseDecision.
  fold netDisplacement threshold averageVelocity.
  unfold gtb.
  destruct (direction d) as [[|]|];
    destruct (threshold <? netDisplacement);
    destruct (Fin 500 <? averageVelocity);
    destruct (netDisplacement <? threshold);
    simpl; repeat split; intros; try congruence; intuition congruence.
Qed.

(** A downward drag of 400 pixels on a viewport 700 high closes the sheet
    whatever the velocity. *)
Example close_by_distance (d : DragState) :
  direction d = Some down ->
  releaseDecision (Fin 700) (Fin 100) (Fin 500) d = Close.
Proof.
  intros Hdir. unfold releaseDecision. rewrite Hdir. reflexivity.
Qed.

(** A downward drag of 100 pixels at 600 pixels per second closes it too. *)
Example close_by_velocity :
  releaseDecision (Fin 700) (Fin 100) (Fin 200)
    (mkDragState (Some (Fin 100)) (Some (Fin 200)) (Some (Fin 0)) true
       (Some down) (Fin 600) (Fin 1)) = Close.
Proof. reflexivity. Qed.

(** An upward drag never reopens the sheet without exceeding 500 pixels per
    second. *)
Example snap_back_when_slow (innerHeight sY cY : num) (d : DragState) :
  direction d = Some up ->
  (totalDistance d / totalTime d >? Fin 500) = false ->
  releaseDecision innerHeight sY cY d = SnapBack.
Proof.
  intros Hdir Hv. unfold releaseDecision. rewrite Hdir, Hv.
  now rewrite Bool.orb_false_r, !Bool.andb_false_r.
Qed.

(** An upward drag of 50 pixels at 600 pixels per second reopens it. *)
Example reopen_by_velocity :
  releaseDecision (Fin 700) (Fin 100) (Fin 50)
    (mkDragState (Some (Fin 100)) (Some (Fin 50)) (Some (Fin 0)) true
       (Some up) (Fin 600) (Fin 1)) = Reopen.
Proof. reflexivity. Qed.

(** C1.  On the release of an active session, with
    [netDisplacement = currentY - startY], [threshold = innerHeight / 2] and
    [averageVelocity = totalDistance / totalTime]: the conditional of
    [endDrag] takes the Close branch exactly when the direction is down and
    the displacement exceeds the threshold or the velocity exceeds 500; the
    Reopen branch exactly when the direction is up, the displacement is below
    the threshold and the velocity exceeds 500; and the SnapBack branch
    exactly when neither holds.  Close sets the visibility flag to false,
    Reopen sets it to true, SnapBack leaves it as it was. *)
Theorem endDrag_decision (innerHeight : num) (s : State) (sY cY t0 : num) :
  active s sY cY t0 ->
  let d := dragState s in
  let netDisplacement := cY - sY in
  let threshold := innerHeight / Fin 2 in
  let averageVelocity := totalDistance d / totalTime d in
  let closes :=
    direction d = Some down /\
    (netDisplacement > threshold \/ averageVelocity > Fin 500) in
  let reopens :=
    direction d = Some up /\
    netDisplacement < threshold /\ averageVelocity > Fin 500 in
  let decision := releaseDecision innerHeight sY cY d in
  (decision = Close <-> closes) /\
  (decision = Reopen <-> reopens) /\
  (decision = SnapBack <-> ~ closes /\ ~ reopens) /\
  isOpened (endDrag innerHeight s) =
    match decision with
    | Close => false
    | Reopen => true
    | SnapBack => isOpened s
    end.
Proof.
  intros Ha d netDisplacement threshold averageVelocity closes reopens decision.
  destruct (releaseDecision_iff innerHeight sY cY d) as (Hc & Hr & Hs).
  split; [exact Hc | split; [exact Hr | split; [exact Hs |]]].
  rewrite (endDrag_active innerHeight Ha). fold d decision.
  destruct decision; simpl; now rewrite isOpened_animateTo.
Qed.

(** C1 at a fast pull from 100 to 500 on a viewport 700 high: the release
    closes the sheet. *)
Lemma endDrag_decision_witness :
  active fastPull (Fin 100) (Fin 500) (Fin 1000) /\
  releaseDecision (Fin 700) (Fin 100) (Fin 500) (dragState fastPull) = Close /\
  isOpened (endDrag (Fin 700) fastPull) = false.
Proof.
  assert (Ha : active fastPull (Fin 100) (Fin 500) (Fin 1000))
    by (vm_compute; repeat split).
  pose proof (endDrag_decision (Fin 700) Ha) as H. cbv zeta in H.
  destruct H as (Hc & _ & _ & Ho).
  assert (Hd : releaseDecision (Fin 700) (Fin 100) (Fin 500)
                 (dragState fastPull) = Close)
    by (apply Hc; vm_compute; auto).
  split; [exact Ha |]. split; [exact Hd |].
  rewrite Ho, Hd. reflexivity.
Defined.

(** C4.  After [endDrag] on an active session with start position, current
    position and start time, whichever branch the release takes, the drag
    state is the empty one (the three optional fields null, [isDragging]
    false, [direction] null, [totalDistance] and [totalTime] 0) and the
    overlay opacity is 1. *)
Theorem endDrag_resets (innerHeight : num) (s : State) (sY cY t0 : num) :
  active s sY cY t0 ->
  dragState (endDrag innerHeight s) =
    mkDragState None None None false None (Fin 0) (Fin 0) /\
  overlayOpacity (endDrag innerHeight s) = Fin 1.
Proof.
  intros Ha. rewrite (endDrag_active innerHeight Ha).
  split; reflexivity.
Qed.

(** C4 at the fast pull. *)
Lemma endDrag_resets_witness :
  active fastPull (Fin 100) (Fin 500) (Fin 1000) /\
  dragState (endDrag (Fin 700) fastPull) =
    mkDragState None None None false None (Fin 0) (Fin 0) /\
  overlayOpacity (endDrag (Fin 700) fastPull) = Fin 1.
Proof.
  assert (Ha : active fastPull (Fin 100) (Fin 500) (Fin 1000))
    by (vm_compute; repeat split).
  split; [exact Ha |].
  exact (endDrag_resets (Fin 700) Ha).
Defined.

(** C9.  A release on an active session whose [currentY] is null (a press
    with no move after it) returns at the guard: the state is unchanged, so
    the session is still dragging with its start position and start time,
    nothing is reset and the overlay opacity is not touched.  The session
    left behind still takes move events, and the next press overwrites
    it. *)
Theorem endDrag_without_move (innerHeight : num) (s : State) :
  isDragging (dragState s) = true ->
  currentY (dragState s) = None ->
  endDrag innerHeight s = s /\
  (forall now y, endDrag innerHeight (startDrag now y s) = startDrag now y s) /\
  (forall sY now y,
      startY (dragState s) = Some sY ->
      let s' := dragMove innerHeight now y (endDrag innerHeight s) in
      isDragging (dragState s') = true /\
      currentY (dragState s') = Some y /\
      startY (dragState s') = Some sY) /\
  (forall now y,
      dragState (startDrag now y (endDrag innerHeight s)) =
      mkDragState (Some y) None (Some now) true None (Fin 0) (Fin 0)).
Proof.
  intros Hd Hc.
  assert (He : endDrag innerHeight s = s).
  { unfold endDrag. rewrite Hd, Hc. now destruct (startY (dragState s)). }
  split; [exact He |]. split; [| split].
  - intros now y. unfold endDrag, startDrag, setTransition.
    destruct (contentRef _); reflexivity.
  - intros sY now y Hs s'. subst s'. rewrite He.
    unfold dragMove. rewrite Hd, Hs. unfold setTransform.
    destruct (contentRef _); simpl; auto.
  - intros now y. rewrite He. unfold startDrag, setTransition.
    destruct (contentRef _); reflexivity.
Qed.

(** C9 at a press with no move. *)
Lemma endDrag_without_move_witness :
  isDragging (dragState pressedOnly) = true /\
  currentY (dragState pressedOnly) = None /\
  endDrag (Fin 700) pressedOnly = pressedOnly.
Proof.
  assert (Hd : isDragging (dragState pressedOnly) = true) by reflexivity.
  assert (Hc : currentY (dragState pressedOnly) = None) by reflexivity.
  split; [exact Hd |]. split; [exact Hc |].
  exact (proj1 (endDrag_without_move (Fin 700) pressedOnly Hd Hc)).
Defined.

(** The velocity of a release with [totalTime = 0]: the quotient is not
    guarded. *)
Lemma velocity_zero_time (td tt : Q) :
  (tt == 0)%Q -> (0 <= td)%Q ->
  ((td == 0)%Q -> Fin td / Fin tt = NaN) /\
  ((0 < td)%Q -> Fin td / Fin tt = PInf).
Proof.
  intros Htt Htd. unfold div, signed_inf.
  apply Qcompare_Eq in Htt. rewrite Htt.
  split; intros H.
  - apply Qcompare_Eq in H. now rewrite H.
  - apply Qcompare_Gt in H. now rewrite H.
Qed.

(** C2, as stated, fails: a press and two moves within one millisecond leave
    an active session with [totalTime = 0] and [totalDistance = 5]; the
    velocity is [+Infinity], and the release of this downward drag of 10
    pixels closes the sheet instead of snapping back. *)
Lemma zero_time_release_closes :
  let s := sameTickPull in
  active s (Fin 100) (Fin 110) (Fin 1000) /\
  totalTime (dragState s) == Fin 0 /\
  totalDistance (dragState s) / totalTime (dragState s) = PInf /\
  releaseDecision (Fin 700) (Fin 100) (Fin 110) (dragState s) = Close /\
  releaseDecision (Fin 700) (Fin 100) (Fin 110) (dragState s) <> SnapBack /\
  isOpened s = true /\
  isOpened (endDrag (Fin 700) s) = false.
Proof.
  vm_compute. repeat split; try reflexivity; discriminate.
Qed.

(** C2, amended.  On the release of an active session with [totalTime = 0]
    the division is not guarded.  With [totalDistance = 0] the velocity is
    [NaN], the comparison [velocity > 500] is false, and the release closes
    exactly when the direction is down and the displacement exceeds the
    threshold, and never reopens.  With [totalDistance > 0] the velocity is
    [+Infinity], the comparison is true, and the release closes exactly when
    the direction is down and reopens exactly when the direction is up and
    the displacement is below the threshold.  In each case every other
    release snaps back. *)
Theorem endDrag_zero_time (innerHeight : num) (s : State) (sY cY t0 : num) (td : Q) :
  active s sY cY t0 ->
  totalTime (dragState s) == Fin 0 ->
  totalDistance (dragState s) = Fin td ->
  (0 <= td)%Q ->
  let d := dragState s in
  let netDisplacement := cY - sY in
  let threshold := innerHeight / Fin 2 in
  let averageVelocity := totalDistance d / totalTime d in
  let decision := releaseDecision innerHeight sY cY d in
  ((td == 0)%Q ->
     averageVelocity = NaN /\
     (decision = Close <-> direction d = Some down /\ netDisplacement > threshold) /\
     decision <> Reopen /\
     (decision = SnapBack <->
        ~ (direction d = Some down /\ netDisplacement > threshold))) /\
  ((0 < td)%Q ->
     averageVelocity = PInf /\
     (decision = Close <-> direction d = Some down) /\
     (decision = Reopen <-> direction d = Some up /\ netDisplacement < threshold) /\
     (decision = SnapBack <->
        ~ direction d = Some down /\
        ~ (direction d = Some up /\ netDisplacement < threshold))).
Proof.
  intros Ha Htt Htd Hpos d netDisplacement threshold averageVelocity decision.
  destruct (releaseDecision_iff innerHeight sY cY d) as (Hc & Hr & Hs).
  fold netDisplacement threshold averageVelocity decision in Hc, Hr, Hs.
  destruct (totalTime (dragState s)) as [tt| | |] eqn:Ett; simpl in Htt;
    try contradiction.
  destruct (velocity_zero_time Htt Hpos) as [Hnan Hinf].
  assert (Ev : averageVelocity = Fin td / Fin tt).
  { subst averageVelocity d. now rewrite Htd, Ett. }
  split; intros H.
  - specialize (Hnan H). rewrite <- Ev in Hnan.
    rewrite Hnan in Hc, Hr, Hs. unfold gtb in Hc, Hr, Hs. simpl in Hc, Hr, Hs.
    split; [exact Hnan |]. split; [| split].
    + rewrite Hc. intuition congruence.
    + intros E. apply Hr in E. intuition congruence.
    + rewrite Hs. intuition congruence.
  - specialize (Hinf H). rewrite <- Ev in Hinf.
    rewrite Hinf in Hc, Hr, Hs. unfold gtb in Hc, Hr, Hs. simpl in Hc, Hr, Hs.
    split; [exact Hinf |]. split; [| split].
    + rewrite Hc. intuition congruence.
    + rewrite Hr. intuition congruence.
    + rewrite Hs. intuition congruence.
Qed.

(** C2, amended, at the two moves within one millisecond: the distance is 5,
    the velocity is infinite and the release closes. *)
Lemma endDrag_zero_time_witness :
  active sameTickPull (Fin 100) (Fin 110) (Fin 1000) /\
  totalTime (dragState sameTickPull) == Fin 0 /\
  totalDistance (dragState sameTickPull) = Fin 5 /\
  (0 <= 5)%Q /\
  releaseDecision (Fin 700) (Fin 100) (Fin 110) (dragState sameTickPull) = Close.
Proof.
  assert (Ha : active sameTickPull (Fin 100) (Fin 110) (Fin 1000))
    by (vm_compute; repeat split).
  assert (Ht : totalTime (dragState sameTickPull) == Fin 0) by reflexivity.
  assert (Hd : totalDistance (dragState sameTickPull) = Fin 5) by reflexivity.
  assert (Hp : (0 <= 5)%Q) by (unfold Qle; simpl; lia).
  pose proof (endDrag_zero_time (Fin 700) Ha Ht Hd Hp) as H. cbv zeta in H.
  destruct H as [_ H].
  assert (H5 : (0 < 5)%Q) by reflexivity.
  destruct (H H5) as (_ & Hc & _).
  repeat (split; [assumption |]).
  apply Hc. reflexivity.
Defined.

End SheetRelease.

(* ================================================================== *)
(** ** The accumulated distance of a drag *)
(* ================================================================== *)

Module SheetDistance.

Import JS Sheet JSFacts.
Local Open Scope js_scope.

(** The drag state after a move event that passes the guard. *)
Lemma dragState_dragMove (innerHeight now y : num) (s : State) (sY : num) :
  isDragging (dragState s) = true ->
  startY (dragState s) = Some sY ->
  dragState (dragMove innerHeight now y s) =
  mkDragState
    (Some sY) (Some y) (startTime (dragState s)) true
    (Some (if (y - or_else (Some sY) (Fin 0)) >? Fin 0 then down else up))
    (totalDistance (dragState s) + abs (y - or_else (currentY (dragState s)) y))
    ((now - or_else (startTime (dragState s)) now) / Fin 1000).
Proof.
  intros Hd Hs. unfold dragMove. rewrite Hd, Hs.
  unfold setTransform. now destruct (contentRef _).
Qed.

(** Pointer events at finite coordinates keep the accumulated distance a
    finite non-negative number, from the mounted sheet on. *)
Lemma handle_measured (innerHeight : num) (s : State) (e : Event) :
  finiteEvent e -> measured s -> measured (handle innerHeight s e).
Proof.
  intros He [(td & Htd & Hpos) Hc].
  assert (Hsame : measured s) by (split; [now exists td | exact Hc]).
  assert (Hempty : forall d : DragState,
             totalDistance d = Fin 0 -> currentY d = None ->
             forall s', dragState s' = d -> measured s').
  { intros d H0 Hn s' E. unfold measured. rewrite E. split.
    - exists 0%Q. split; [exact H0 | apply Qle_refl].
    - rewrite Hn. discriminate. }
  destruct e as [now y | now y |]; cbn [handle].
  - apply (Hempty (mkDragState (Some y) None (Some now) true None (Fin 0) (Fin 0)));
      try reflexivity.
    unfold startDrag, setTransition. destruct (contentRef _); reflexivity.
  - destruct (isDragging (dragState s)) eqn:Hd;
      [| unfold dragMove; now rewrite Hd].
    destruct (startY (dragState s)) as [sY |] eqn:Hs;
      [| unfold dragMove; now rewrite Hd, Hs].
    unfold measured.
    rewrite (dragState_dragMove innerHeight now y s Hd Hs).
    cbn [totalDistance currentY].
    destruct y as [q | | |]; try contradiction.
    split; [| intros c [= <-]; exact I].
    rewrite Htd.
    assert (Hprev : exists c : Q,
               or_else (currentY (dragState s)) (Fin q) = Fin c).
    { destruct (currentY (dragState s)) as [c |] eqn:Ec; [| now exists q].
      specialize (Hc c eq_refl). destruct c as [c | | |]; try contradiction.
      unfold or_else. destruct (truthy (Fin c)); [now exists c | now exists q]. }
    destruct Hprev as (c & ->). cbn [sub neg add abs].
    eexists. split; [reflexivity |].
    pose proof (Qabs_nonneg (q + - c)). lra.
  - unfold endDrag.
    destruct (isDragging (dragState s)); [| exact Hsame].
    destruct (startY (dragState s)); [| exact Hsame].
    destruct (currentY (dragState s)); [| exact Hsame].
    destruct (startTime (dragState s)); [| exact Hsame].
    apply (Hempty emptyDragState); reflexivity.
Qed.

Lemma run_measured (innerHeight : num) (es : list Event) :
  forall s : State,
    Forall finiteEvent es -> measured s -> measured (run innerHeight s es).
Proof.
  induction es as [| e es IH]; intros s Hes Hs; [exact Hs |].
  apply (IH (handle innerHeight s e)).
  - exact (Forall_inv_tail Hes).
  - apply handle_measured; [exact (Forall_inv Hes) | exact Hs].
Qed.

Lemma mounted_measured (opened : bool) : measured (mounted opened).
Proof.
  split; [exists 0%Q; split; [reflexivity | apply Qle_refl] | discriminate].
Qed.

(** Move events keep a session active and keep its start position. *)
Lemma moves_keep_session (innerHeight : num) (moves : list (num * Q)) :
  forall (s : State) (sY : num),
    isDragging (dragState s) = true ->
    startY (dragState s) = Some sY ->
    let s' := run innerHeight s (map (fun m => Move (fst m) (Fin (snd m))) moves) in
    isDragging (dragState s') = true /\ startY (dragState s') = Some sY.
Proof.
  induction moves as [| [now q] moves IH]; intros s sY Hd Hs; simpl.
  - auto.
  - apply IH; rewrite (dragState_dragMove innerHeight now (Fin q) s Hd Hs);
      reflexivity.
Qed.

(** From a session whose last sample is [p], further moves add the absolute
    differences between neighbours, as long as no sample that has a
    successor is the coordinate 0. *)
Lemma totalDistance_from_sample (innerHeight : num) (moves : list (num * Q)) :
  forall (s : State) (sY : num) (p td : Q),
    isDragging (dragState s) = true ->
    startY (dragState s) = Some sY ->
    currentY (dragState s) = Some (Fin p) ->
    totalDistance (dragState s) == Fin td ->
    Forall (fun x => ~ (x == 0)%Q) (removelast (p :: map snd moves)) ->
    totalDistance
      (dragState
         (run innerHeight s (map (fun m => Move (fst m) (Fin (snd m))) moves)))
    == Fin (td + sumAbsDeltas p (map snd moves)).
Proof.
  induction moves as [| [now q] moves IH]; intros s sY p td Hd Hs Hc Ht Hnz.
  - simpl. destruct (totalDistance (dragState s)); simpl in *; try contradiction.
    rewrite Ht. ring.
  - cbn [map fst snd run fold_left handle].
    change (fold_left (handle innerHeight)
              (map (fun m => Move (fst m) (Fin (snd m))) moves)
              (dragMove innerHeight now (Fin q) s))
      with (run innerHeight (dragMove innerHeight now (Fin q) s)
              (map (fun m => Move (fst m) (Fin (snd m))) moves)).
    cbn [map snd removelast] in Hnz.
    apply Forall_inv in Hnz as Hp.
    apply Forall_inv_tail in Hnz.
    pose proof (dragState_dragMove innerHeight now (Fin q) s Hd Hs) as E.
    eapply eqv_trans.
    + apply (IH (dragMove innerHeight now (Fin q) s) sY q (td + Qabs (q - p))%Q).
      * now rewrite E.
      * now rewrite E.
      * now rewrite E.
      * rewrite E. cbn [totalDistance]. rewrite Hc, (or_else_nonzero _ Hp).
        destruct (totalDistance (dragState s)); simpl in *; try contradiction.
        rewrite Ht. reflexivity.
      * exact Hnz.
    + simpl. ring.
Qed.

(** The last element of a list with a head does not depend on the default. *)
Lemma last_cons (q : Q) (ps : list Q) (d : Q) : last (q :: ps) d = last ps q.
Proof.
  revert q d. induction ps as [| r ps IH]; intros q d; [reflexivity |].
  change (last (q :: r :: ps) d) with (last (r :: ps) d).
  now rewrite (IH r d), (IH r q).
Qed.

(** The last sample is no farther from the first than the distance summed
    along the way. *)
Lemma sumAbsDeltas_bounds (ps : list Q) :
  forall p : Q,
    (last ps p - p <= sumAbsDeltas p ps)%Q /\
    (- (last ps p - p) <= sumAbsDeltas p ps)%Q.
Proof.
  induction ps as [| q ps IH]; intros p.
  - simpl. split; lra.
  - rewrite last_cons. cbn [sumAbsDeltas].
    destruct (IH q) as [H1 H2].
    pose proof (Qle_Qabs (q - p)) as A1.
    pose proof (Qle_Qabs (- (q - p))) as A2. rewrite Qabs_opp in A2.
    split; lra.
Qed.

(** A step back makes the distance summed along the way exceed the advance
    of the last sample over the first. *)
Lemma sumAbsDeltas_backward (ps : list Q) :
  forall p a : Q,
    In a (deltas p ps) -> (a < 0)%Q ->
    (last ps p - p < sumAbsDeltas p ps)%Q.
Proof.
  induction ps as [| q ps IH]; intros p a Hin Ha.
  - destruct Hin.
  - rewrite last_cons. cbn [sumAbsDeltas].
    destruct (sumAbsDeltas_bounds ps q) as [H1 _].
    pose proof (Qle_Qabs (q - p)) as A1.
    pose proof (Qabs_nonneg (q - p)) as A0.
    destruct Hin as [E | Hin].
    + subst a. lra.
    + specialize (IH q a Hin Ha). lra.
Qed.

(** A step forward makes it exceed the retreat of the last sample. *)
Lemma sumAbsDeltas_forward (ps : list Q) :
  forall p b : Q,
    In b (deltas p ps) -> (0 < b)%Q ->
    (- (last ps p - p) < sumAbsDeltas p ps)%Q.
Proof.
  induction ps as [| q ps IH]; intros p b Hin Hb.
  - destruct Hin.
  - rewrite last_cons. cbn [sumAbsDeltas].
    destruct (sumAbsDeltas_bounds ps q) as [_ H2].
    pose proof (Qle_Qabs (- (q - p))) as A2. rewrite Qabs_opp in A2.
    pose proof (Qabs_nonneg (q - p)) as A0.
    destruct Hin as [E | Hin].
    + subst b. lra.
    + specialize (IH q b Hin Hb). lra.
Qed.

(** A bound on both signs is a bound on the absolute value. *)
Lemma Qabs_le_of_bounds (x y : Q) : (x <= y -> - x <= y -> Qabs x <= y)%Q.
Proof. intros H1 H2. apply Qabs_Qle_condition. split; lra. Qed.

Lemma Qabs_lt_of_bounds (x y : Q) : (x < y -> - x < y -> Qabs x < y)%Q.
Proof.
  intros H1 H2. apply Qabs_case; intros _; lra.
Qed.

(** C3, as stated, fails: after a press at 100 and one move to 150 the
    accumulated distance is 0, where the sum that counts the first sample in
    full is 50 (and the sample's own magnitude is 150). *)
Lemma first_move_adds_nothing :
  let s := run (Fin 700) (mounted true)
             (pressAndMoves (Fin 1000) 100 [(Fin 1016, 150)]) in
  totalDistance (dragState s) == Fin 0 /\
  (spec_accumulatedDistance 100 [150] == 50)%Q /\
  ~ totalDistance (dragState s) == Fin (spec_accumulatedDistance 100 [150]) /\
  ~ totalDistance (dragState s) == Fin 150.
Proof.
  vm_compute. repeat split; discriminate.
Qed.

(** C3, amended.  After a press and [N] move events at positions
    [p1 .. pN], none of which but the last is the coordinate 0, the
    accumulated distance is [|p2 - p1| + ... + |pN - p(N-1)|]: the sum of the
    absolute differences between consecutive samples, the first sample
    adding nothing.  It is at least [|pN - p1|] whatever the directions of
    the steps, and strictly more as soon as one step goes back and one goes
    forward. *)
Theorem totalDistance_after_moves
    (innerHeight now0 : num) (start : Q) (moves : list (num * Q)) (s : State) :
  Forall (fun p => ~ (p == 0)%Q) (removelast (map snd moves)) ->
  let ps := map snd moves in
  let s' := run innerHeight s (pressAndMoves now0 start moves) in
  totalDistance (dragState s') == Fin (sampleDistance ps) /\
  (Qabs (last ps 0 - hd 0 ps) <= sampleDistance ps)%Q /\
  (forall a b : Q,
      In a (sampleDeltas ps) -> In b (sampleDeltas ps) ->
      (a < 0)%Q -> (0 < b)%Q ->
      (Qabs (last ps 0 - hd 0 ps) < sampleDistance ps)%Q).
Proof.
  intros Hnz ps s'. subst ps s'. split; [| split].
  - unfold pressAndMoves.
    destruct moves as [| [now1 p1] moves].
    + simpl. unfold startDrag, setTransition.
      destruct (contentRef _); simpl; reflexivity.
    + cbn [run fold_left handle map fst snd sampleDistance].
      set (s0 := startDrag now0 (Fin start) s).
      assert (Hd0 : isDragging (dragState s0) = true).
      { subst s0. unfold startDrag, setTransition.
        destruct (contentRef _); reflexivity. }
      assert (Hs0 : startY (dragState s0) = Some (Fin start)).
      { subst s0. unfold startDrag, setTransition.
        destruct (contentRef _); reflexivity. }
      assert (Hc0 : currentY (dragState s0) = None).
      { subst s0. unfold startDrag, setTransition.
        destruct (contentRef _); reflexivity. }
      assert (Ht0 : totalDistance (dragState s0) = Fin 0).
      { subst s0. unfold startDrag, setTransition.
        destruct (contentRef _); reflexivity. }
      pose proof (dragState_dragMove innerHeight now1 (Fin p1) s0 Hd0 Hs0) as E.
      eapply eqv_trans.
      * apply (@totalDistance_from_sample innerHeight moves
                 (dragMove innerHeight now1 (Fin p1) s0) (Fin start) p1 0%Q).
        -- now rewrite E.
        -- now rewrite E.
        -- now rewrite E.
        -- rewrite E. cbn [totalDistance]. rewrite Hc0, Ht0.
           unfold or_else, sub, neg, add, abs, eqv.
           rewrite Qplus_opp_r. reflexivity.
        -- exact Hnz.
      * simpl. ring.
  - destruct (map snd moves) as [| p1 ps]; [simpl; lra |].
    rewrite last_cons. cbn [hd sampleDistance].
    destruct (sumAbsDeltas_bounds ps p1).
    now apply Qabs_le_of_bounds.
  - intros a b Ha Hb Hneg Hpos.
    destruct (map snd moves) as [| p1 ps]; [destruct Ha |].
    rewrite last_cons. cbn [hd sampleDistance]. cbn [sampleDeltas] in Ha, Hb.
    apply Qabs_lt_of_bounds.
    + exact (@sumAbsDeltas_backward ps p1 a Ha Hneg).
    + exact (@sumAbsDeltas_forward ps p1 b Hb Hpos).
Qed.

(** C3, amended, at a press at 100 and moves to 150, 120 and 180: the
    distance is 30 + 60 = 90, not the 30 between the first and the last
    sample. *)
Lemma totalDistance_after_moves_witness :
  let moves := [(Fin 1016, 150%Q); (Fin 1032, 120%Q); (Fin 1048, 180%Q)] in
  Forall (fun p => ~ (p == 0)%Q) (removelast (map snd moves)) /\
  totalDistance
    (dragState (run (Fin 700) (mounted true) (pressAndMoves (Fin 1000) 100 moves)))
  == Fin 90 /\
  (Qabs (180 - 150) < 90)%Q.
Proof.
  intros moves.
  assert (Hnz : Forall (fun p => ~ (p == 0)%Q) (removelast (map snd moves))).
  { simpl. repeat constructor; discriminate. }
  pose proof (totalDistance_after_moves (Fin 700) (Fin 1000) 100 moves
                (mounted true) Hnz) as H.
  cbv zeta in H. destruct H as (H1 & _ & H3).
  split; [exact Hnz |]. split; [exact H1 |].
  apply (H3 (120 - 150)%Q (180 - 120)%Q); simpl; auto; reflexivity.
Defined.

(** C10.  On a move event of an active session whose recorded [currentY] is
    the coordinate 0, or is null (the first move after a press), the move
    adds nothing to [totalDistance], whatever the position [y] of the move:
    [prev.currentY || y] is [y] in both cases. *)
Theorem dragMove_falsy_previous
    (innerHeight now : num) (y : Q) (s : State) (sY : num) :
  isDragging (dragState s) = true ->
  startY (dragState s) = Some sY ->
  currentY (dragState s) = None \/
    (exists z : Q, currentY (dragState s) = Some (Fin z) /\ (z == 0)%Q) ->
  or_else (currentY (dragState s)) (Fin y) = Fin y /\
  (exists contribution : num,
      totalDistance (dragState (dragMove innerHeight now (Fin y) s)) =
        totalDistance (dragState s) + contribution /\
      contribution == Fin 0) /\
  (forall td : Q,
      totalDistance (dragState s) = Fin td ->
      totalDistance (dragState (dragMove innerHeight now (Fin y) s)) == Fin td).
Proof.
  intros Hd Hs Hc.
  assert (Hor : or_else (currentY (dragState s)) (Fin y) = Fin y).
  { destruct Hc as [Hc | (z & Hc & Hz)]; rewrite Hc.
    - reflexivity.
    - now apply or_else_zero. }
  rewrite (dragState_dragMove innerHeight now (Fin y) s Hd Hs). simpl totalDistance.
  rewrite Hor. split; [reflexivity |]. split.
  - exists (abs (Fin y - Fin y)). split; [reflexivity | apply abs_sub_self].
  - intros td Htd. rewrite Htd.
    unfold sub, neg, add, abs, eqv.
    rewrite Qplus_opp_r. simpl. ring.
Qed.

(** C10 at a session whose last position is the coordinate 0: a move to 300
    adds nothing to the distance of 100 travelled so far. *)
Lemma dragMove_falsy_previous_witness :
  let s := run (Fin 700) (mounted true)
             (pressAndMoves (Fin 1000) 100 [(Fin 1016, 100); (Fin 1032, 0)]) in
  isDragging (dragState s) = true /\
  startY (dragState s) = Some (Fin 100) /\
  currentY (dragState s) = Some (Fin 0) /\
  totalDistance (dragState s) = Fin 100 /\
  totalDistance (dragState (dragMove (Fin 700) (Fin 1048) (Fin 300) s)) == Fin 100.
Proof.
  intros s.
  assert (Hd : isDragging (dragState s) = true) by reflexivity.
  assert (Hs : startY (dragState s) = Some (Fin 100)) by reflexivity.
  assert (Hc : currentY (dragState s) = Some (Fin 0)) by reflexivity.
  assert (Ht : totalDistance (dragState s) = Fin 100) by reflexivity.
  repeat (split; [assumption |]).
  refine (proj2 (proj2 (dragMove_falsy_previous
                          (Fin 700) (Fin 1048) 300 s Hd Hs _)) 100%Q Ht).
  right. exists 0%Q. split; [exact Hc | reflexivity].
Defined.

End SheetDistance.

(* ================================================================== *)
(** ** What a move event shows: the content offset and the overlay opacity *)
(* ================================================================== *)

Module SheetPresentation.

Import JS Sheet JSFacts.
Local Open Scope js_scope.

(** The drag distance of a move at [y] in a session started at [sY]. *)
Lemma dragDistance_Fin (y sY : Q) :
  exists dd : Q,
    Fin y - or_else (Some (Fin sY)) (Fin 0) = Fin dd /\ (dd == y - sY)%Q.
Proof.
  unfold or_else, truthy.
  destruct (Qeq_bool sY 0) eqn:E; simpl; eexists; split; try reflexivity.
  apply Qeq_bool_iff in E. lra.
Qed.

Lemma adjustedDragDistance_up (innerHeight dd : Q) :
  (dd <= 0)%Q ->
  exists o : Q,
    adjustedDragDistance (Fin innerHeight) (Fin dd) = Fin o /\
    (o == Qmax (- (innerHeight * 0.01)) (dd * 0.1))%Q.
Proof.
  intros H. unfold adjustedDragDistance, gtb. cbn [ltb].
  apply Qltb_false in H. rewrite H.
  cbn [mul neg max ltb].
  destruct (Qltb (- (innerHeight * 0.01)) (dd * 0.1)) eqn:E; eexists;
    split; try reflexivity.
  - apply Qltb_true in E. rewrite Q.max_r; [reflexivity | lra].
  - apply Qltb_false in E. rewrite Q.max_l; [reflexivity | lra].
Qed.

Lemma adjustedDragDistance_down (innerHeight dd : Q) :
  (0 < dd)%Q -> adjustedDragDistance (Fin innerHeight) (Fin dd) = Fin dd.
Proof.
  intros H. unfold adjustedDragDistance, gtb. cbn [ltb].
  apply Qltb_true in H. now rewrite H.
Qed.

(** The style of the content element after a move event that passes the
    guard. *)
Lemma contentRef_dragMove
    (innerHeight now y : num) (s : State) (sY : num) (st : Style) :
  isDragging (dragState s) = true ->
  startY (dragState s) = Some sY ->
  contentRef s = Some st ->
  contentRef (dragMove innerHeight now y s) =
  Some (mkStyle
          (translateY_px
             (adjustedDragDistance innerHeight (y - or_else (Some sY) (Fin 0))))
          (transition st)).
Proof.
  intros Hd Hs Hc. unfold dragMove. rewrite Hd, Hs.
  unfold setTransform. cbn [contentRef setOverlayOpacity setDragState].
  now rewrite Hc.
Qed.

(** C5.  On a move event of an active session, with [d = y - startY]: for
    [d <= 0] the offset written into the transform of the content is
    [max(-0.01 * innerHeight, 0.1 * d)], whose magnitude is at most
    [0.01 * innerHeight] however far up the pointer went; for [d > 0] the
    offset is [d] itself. *)
Theorem dragMove_contentOffset
    (innerHeight y sY : Q) (now : num) (s : State) (st : Style) :
  (0 <= innerHeight)%Q ->
  isDragging (dragState s) = true ->
  startY (dragState s) = Some (Fin sY) ->
  contentRef s = Some st ->
  let d := (y - sY)%Q in
  exists contentOffset : Q,
    contentRef (dragMove (Fin innerHeight) now (Fin y) s) =
      Some (mkStyle (translateY_px (Fin contentOffset)) (transition st)) /\
    ((d <= 0)%Q ->
       (contentOffset == Qmax (- (0.01 * innerHeight)) (0.1 * d))%Q /\
       (Qabs contentOffset <= 0.01 * innerHeight)%Q) /\
    ((0 < d)%Q -> (contentOffset == d)%Q).
Proof.
  intros Hh Hd Hs Hc d.
  rewrite (contentRef_dragMove (Fin innerHeight) now (Fin y) s Hd Hs Hc).
  destruct (dragDistance_Fin y sY) as (dd & -> & Edd). fold d in Edd.
  destruct (Qlt_le_dec 0 dd) as [Hpos | Hneg].
  - rewrite (adjustedDragDistance_down innerHeight Hpos).
    exists dd. split; [reflexivity |]. split; intros H; lra.
  - destruct (adjustedDragDistance_up innerHeight Hneg) as (o & -> & Eo).
    exists o. split; [reflexivity |]. split; intros H; [| lra].
    destruct (Q.max_spec (- (innerHeight * 0.01)) (dd * 0.1))
      as [[Hlt Em] | [Hle Em]];
      destruct (Q.max_spec (- (0.01 * innerHeight)) (0.1 * d))
        as [[Hlt' Em'] | [Hle' Em']];
      rewrite Em in Eo; rewrite Em'; (split; [lra |]);
      apply Qabs_Qle_condition; lra.
Qed.

(** C5 at a pointer 100000 pixels above the press, on a viewport 700 high:
    the content moves up by 7 pixels. *)
Lemma dragMove_contentOffset_witness :
  (0 <= 700)%Q /\
  isDragging (dragState pressedOnly) = true /\
  startY (dragState pressedOnly) = Some (Fin 100) /\
  contentRef pressedOnly = Some (mkStyle transform_empty transition_unset) /\
  exists contentOffset : Q,
    contentRef (dragMove (Fin 700) (Fin 1016) (Fin (-99900)) pressedOnly) =
      Some (mkStyle (translateY_px (Fin contentOffset)) transition_unset) /\
    (contentOffset == -7)%Q.
Proof.
  assert (Hh : (0 <= 700)%Q) by (unfold Qle; simpl; lia).
  assert (Hd : isDragging (dragState pressedOnly) = true) by reflexivity.
  assert (Hs : startY (dragState pressedOnly) = Some (Fin 100)) by reflexivity.
  assert (Hc : contentRef pressedOnly =
               Some (mkStyle transform_empty transition_unset))
    by reflexivity.
  repeat (split; [assumption |]).
  destruct (dragMove_contentOffset (-99900) (Fin 1016) pressedOnly Hh Hd Hs Hc)
    as (o & Ho & Hup & _).
  exists o. split; [exact Ho |].
  assert (Hneg : (-99900 - 100 <= 0)%Q) by (unfold Qle; simpl; lia).
  destruct (Hup Hneg) as [E _]. rewrite E. reflexivity.
Defined.

(** The opacity [dragMove] computes from a finite drag distance, on a
    viewport of non-negative height. *)
Lemma dragOpacity_Fin (innerHeight d : Q) :
  (0 <= innerHeight)%Q ->
  exists o : Q,
    dragOpacity (Fin innerHeight) (Fin d) = Fin o /\
    (0 <= o <= 1)%Q /\
    ((d <= 0)%Q -> (o == 1)%Q) /\
    ((0 < d)%Q -> (innerHeight * 0.5 == 0)%Q -> (o == 0)%Q) /\
    ((0 < d)%Q -> (0 < innerHeight * 0.5)%Q ->
       (o == Qmax 0 (1 - d / (innerHeight * 0.5)))%Q).
Proof.
  intros Hh. unfold dragOpacity, gtb. cbn [ltb].
  destruct (Qltb 0 d) eqn:E.
  - apply Qltb_true in E.
    assert (Ea : (Qabs d == d)%Q) by (apply Qabs_pos; lra).
    cbn [mul abs]. unfold div.
    destruct (Qcompare_cases (innerHeight * 0.5) 0) as [[C H] | [[C H] | [C H]]];
      rewrite C.
    + lra.
    + unfold signed_inf.
      assert (G : (Qabs d ?= 0) = Gt) by (apply Qcompare_Gt; lra).
      rewrite G. cbn. exists 0%Q.
      split; [reflexivity |].
      split; [lra |]. split; [intros; lra |]. split; intros; lra.
    + assert (Hq : (0 <= d / (innerHeight * 0.5))%Q).
      { apply Qle_shift_div_l; lra. }
      assert (Ex : (1 + - (Qabs d / (innerHeight * 0.5)) ==
                    1 - d / (innerHeight * 0.5))%Q).
      { rewrite Ea. reflexivity. }
      unfold sub. cbn [neg add max ltb].
      set (x := (1 + - (Qabs d / (innerHeight * 0.5)))%Q) in *.
      destruct (Qltb 0 x) eqn:L.
      * apply Qltb_true in L. exists x.
        split; [reflexivity |].
        split; [lra |]. split; [intros; lra |]. split; [intros; lra |].
        intros _ _. rewrite Q.max_r; lra.
      * apply Qltb_false in L. exists 0%Q.
        split; [reflexivity |].
        split; [lra |]. split; [intros; lra |]. split; [intros; lra |].
        intros _ _. rewrite Q.max_l; lra.
  - apply Qltb_false in E. exists 1%Q.
    split; [reflexivity |].
    split; [lra |]. split; [intros; lra |]. split; intros; lra.
Qed.

(** Dividing by a positive bound keeps the order. *)
Lemma Qdiv_le_compat (x y m : Q) : (0 < m -> x <= y -> x / m <= y / m)%Q.
Proof.
  intros Hm Hxy. unfold Qdiv.
  apply Qmult_le_compat_r; [exact Hxy |].
  apply Qlt_le_weak, Qinv_lt_0_compat, Hm.
Qed.

(** Dividing by a positive bound keeps the strict order. *)
Lemma Qdiv_lt_compat (x y m : Q) : (0 < m -> x < y -> x / m < y / m)%Q.
Proof.
  intros Hm Hxy. unfold Qdiv.
  apply Qmult_lt_compat_r; [apply Qinv_lt_0_compat, Hm | exact Hxy].
Qed.

(** The fade: up to half the viewport the opacity is [1 - d / (0.5 * h)]. *)
Lemma dragOpacity_fade (innerHeight d : Q) :
  (0 <= innerHeight)%Q -> (0 < d)%Q -> (d <= 0.5 * innerHeight)%Q ->
  exists o : Q,
    dragOpacity (Fin innerHeight) (Fin d) = Fin o /\
    (o == 1 - d / (0.5 * innerHeight))%Q.
Proof.
  intros Hh Hd Hm.
  destruct (dragOpacity_Fin d Hh) as (o & E & _ & _ & _ & Hp).
  exists o. split; [exact E |].
  assert (Hpos : (0 < innerHeight * 0.5)%Q) by lra.
  assert (Em : (0.5 * innerHeight == innerHeight * 0.5)%Q) by ring.
  assert (Hq : (d / (innerHeight * 0.5) <= 1)%Q)
    by (apply Qle_shift_div_r; lra).
  eapply Qeq_trans; [exact (Hp Hd Hpos) |].
  eapply Qeq_trans; [apply Q.max_r; lra |].
  now rewrite Em.
Qed.

(** C6.  On a viewport of non-negative height, the opacity a move event
    gives the overlay is a function of the net displacement [d]: it is
    exactly 1 for every [d <= 0], lies in [0, 1] for every [d], never
    increases when [d] grows, and is 0 for every positive [d] of at least
    [0.5 * innerHeight], which on a viewport of positive height includes
    [d = 0.5 * innerHeight] itself.  It reaches 0 there and not before: up
    to [0.5 * innerHeight] the opacity is [1 - d / (0.5 * innerHeight)],
    which is positive below [0.5 * innerHeight] and strictly decreasing. *)
Theorem dragMove_overlayOpacity (innerHeight : Q) :
  (0 <= innerHeight)%Q ->
  let opacity := fun d : Q => dragOpacity (Fin innerHeight) (Fin d) in
  (forall (now : num) (y sY : Q) (s : State),
      isDragging (dragState s) = true ->
      startY (dragState s) = Some (Fin sY) ->
      exists d : Q,
        (d == y - sY)%Q /\
        overlayOpacity (dragMove (Fin innerHeight) now (Fin y) s) = opacity d) /\
  (forall d : Q, (d <= 0)%Q -> opacity d = Fin 1) /\
  (forall d : Q, Fin 0 <= opacity d /\ opacity d <= Fin 1) /\
  (forall d1 d2 : Q, (d1 <= d2)%Q -> opacity d2 <= opacity d1) /\
  (forall d : Q, (0 < d)%Q -> (0.5 * innerHeight <= d)%Q -> opacity d == Fin 0) /\
  ((0 < innerHeight)%Q -> opacity (0.5 * innerHeight)%Q == Fin 0) /\
  (forall d : Q,
      (0 < d)%Q -> (d <= 0.5 * innerHeight)%Q ->
      opacity d == Fin (1 - d / (0.5 * innerHeight))) /\
  (forall d : Q,
      (0 < d)%Q -> (d < 0.5 * innerHeight)%Q -> Fin 0 < opacity d) /\
  (forall d1 d2 : Q,
      (0 < d1)%Q -> (d1 < d2)%Q -> (d2 <= 0.5 * innerHeight)%Q ->
      opacity d2 < opacity d1).
Proof.
  intros Hh opacity.
  assert (Hzero : forall d : Q,
             (0 < d)%Q -> (0.5 * innerHeight <= d)%Q -> opacity d == Fin 0).
  { intros d Hd Hm. subst opacity. cbv beta.
    destruct (dragOpacity_Fin d Hh) as (o & -> & _ & _ & Hz & Hp).
    destruct (Qcompare_cases (innerHeight * 0.5) 0) as [[_ H] | [[_ H] | [_ H]]].
    - lra.
    - simpl. exact (Hz Hd H).
    - simpl.
      assert (1 <= d / (innerHeight * 0.5))%Q by (apply Qle_shift_div_l; lra).
      eapply Qeq_trans; [exact (Hp Hd H) | apply Q.max_l; lra]. }
  split; [| split; [| split; [| split; [| split; [| split; [| split; [| split]]]]]]].
  - intros now y sY s Hd Hs.
    destruct (dragDistance_Fin y sY) as (dd & E & Edd).
    exists dd. split; [exact Edd |].
    unfold dragMove. rewrite Hd, Hs, E. unfold setTransform.
    now destruct (contentRef _).
  - intros d Hd. subst opacity. cbv beta.
    unfold dragOpacity, gtb. cbn [ltb].
    apply Qltb_false in Hd. now rewrite Hd.
  - intros d. subst opacity. cbv beta.
    destruct (dragOpacity_Fin d Hh) as (o & -> & [H0 H1] & _).
    split; apply Qleb_true; assumption.
  - intros d1 d2 Hle. subst opacity. cbv beta.
    destruct (dragOpacity_Fin d1 Hh) as (o1 & -> & [L1 U1] & A1 & Z1 & P1).
    destruct (dragOpacity_Fin d2 Hh) as (o2 & -> & [L2 U2] & A2 & Z2 & P2).
    apply Qleb_true.
    destruct (Qlt_le_dec 0 d1) as [Hd1 | Hd1].
    + assert (Hd2 : (0 < d2)%Q) by lra.
      destruct (Qcompare_cases (innerHeight * 0.5) 0) as [[_ H] | [[_ H] | [_ H]]].
      * lra.
      * rewrite (Z1 Hd1 H), (Z2 Hd2 H). lra.
      * rewrite (P1 Hd1 H), (P2 Hd2 H).
        pose proof (Qdiv_le_compat H Hle).
        apply Q.max_le_compat_l. lra.
    + rewrite (A1 Hd1). exact U2.
  - exact Hzero.
  - intros Hpos. apply Hzero; lra.
  - intros d Hd Hm. subst opacity. cbv beta.
    destruct (dragOpacity_fade Hh Hd Hm) as (o & -> & Eo). exact Eo.
  - intros d Hd Hm. subst opacity. cbv beta.
    assert (Hm' : (d <= 0.5 * innerHeight)%Q) by lra.
    destruct (dragOpacity_fade Hh Hd Hm') as (o & -> & Eo).
    cbn [ltb]. apply Qltb_true.
    assert (d / (0.5 * innerHeight) < 1)%Q by (apply Qlt_shift_div_r; lra).
    lra.
  - intros d1 d2 Hd1 Hlt Hm. subst opacity. cbv beta.
    assert (Hm1 : (d1 <= 0.5 * innerHeight)%Q) by lra.
    assert (Hd2 : (0 < d2)%Q) by lra.
    destruct (dragOpacity_fade Hh Hd1 Hm1) as (o1 & -> & E1).
    destruct (dragOpacity_fade Hh Hd2 Hm) as (o2 & -> & E2).
    cbn [ltb]. apply Qltb_true.
    assert (Hpos : (0 < 0.5 * innerHeight)%Q) by lra.
    pose proof (Qdiv_lt_compat Hpos Hlt). lra.
Qed.

(** C6 on a viewport 700 high: the overlay is opaque 5 pixels above the
    press, half faded 175 pixels below it and faded out 350 pixels below
    it. *)
Lemma dragMove_overlayOpacity_witness :
  (0 <= 700)%Q /\
  dragOpacity (Fin 700) (Fin (-5)) = Fin 1 /\
  dragOpacity (Fin 700) (Fin (0.5 * 700)) == Fin 0 /\
  dragOpacity (Fin 700) (Fin 175) == Fin 0.5.
Proof.
  assert (Hh : (0 <= 700)%Q) by (unfold Qle; simpl; lia).
  pose proof (dragMove_overlayOpacity Hh) as H. cbv zeta beta in H.
  destruct H as (_ & Hup & _ & _ & _ & Hhalf & Hfade & _).
  split; [exact Hh |]. split; [| split].
  - apply Hup. unfold Qle; simpl; lia.
  - apply Hhalf. reflexivity.
  - eapply JSFacts.eqv_trans.
    + apply (Hfade 175%Q); [reflexivity | unfold Qle; simpl; lia].
    + reflexivity.
Defined.

End SheetPresentation.

(* ================================================================== *)
(** ** The portal container is a singleton *)
(* ================================================================== *)

Module PortalFacts.

Import Portal.
Local Open Scope string_scope.

Lemma find_snoc (A : Type) (f : A -> bool) (l : list A) (x : A) :
  find f (l ++ [x]) =
  match find f l with
  | Some y => Some y
  | None => if f x then Some x else None
  end.
Proof.
  induction l as [| a l IH]; simpl; [reflexivity |].
  now destruct (f a).
Qed.

Lemma filter_find_none (A : Type) (f : A -> bool) (l : list A) :
  find f l = None -> filter f l = [].
Proof.
  induction l as [| a l IH]; simpl; [reflexivity |].
  destruct (f a); [discriminate | exact IH].
Qed.

Section WithStyles.

Variable styles_iosify : string.

(** A request on a page that has the container returns it and leaves the
    elements alone. *)
Lemma createDiv_found (p : Page) (e : Element) :
  querySelector_id "iosify" p = Some e ->
  createDiv styles_iosify p =
  (mkPage (elements p) (nextNode p) (console p ++ [Some e])%list, e).
Proof. intros H. unfold createDiv. now rewrite H. Qed.

(** A request on a page without it creates the element and appends it. *)
Lemma createDiv_fresh (p : Page) :
  querySelector_id "iosify" p = None ->
  let div := mkElement (nextNode p) "div" "iosify" styles_iosify in
  createDiv styles_iosify p =
  (mkPage (elements p ++ [div])%list (S (nextNode p))
     (console p ++ [None])%list, div).
Proof. intros H. unfold createDiv. now rewrite H. Qed.

(** After a request the selector finds the element the request returned. *)
Lemma querySelector_createDiv (p : Page) :
  querySelector_id "iosify" (fst (createDiv styles_iosify p)) =
  Some (snd (createDiv styles_iosify p)).
Proof.
  destruct (querySelector_id "iosify" p) as [e |] eqn:E.
  - rewrite (createDiv_found p E). exact E.
  - rewrite (createDiv_fresh p E). unfold querySelector_id in *. simpl.
    now rewrite find_snoc, E.
Qed.

Lemma renders_found (n : nat) :
  forall (p : Page) (e : Element),
    querySelector_id "iosify" p = Some e ->
    elements (fst (renders styles_iosify n p)) = elements p /\
    nextNode (fst (renders styles_iosify n p)) = nextNode p /\
    snd (renders styles_iosify n p) = repeat e n.
Proof.
  induction n as [| n IH]; intros p e E; simpl; [auto |].
  rewrite (createDiv_found p E).
  destruct (IH (mkPage (elements p) (nextNode p) (console p ++ [Some e])%list) e E)
    as (H1 & H2 & H3).
  destruct (renders styles_iosify n _) as [p2 rest]; simpl in *.
  now rewrite H1, H2, H3.
Qed.

(** C8.  Requesting the container is idempotent.  A request on a page with
    no element of id [iosify] creates one element with that id and appends it
    to the page; a request on a page that has one returns that element and
    adds none; so a second request returns the element of the first and
    leaves the elements of the page as they were, and so does every later
    one. *)
Theorem createDiv_idempotent (p : Page) :
  let first := createDiv styles_iosify p in
  let second := createDiv styles_iosify (fst first) in
  snd second = snd first /\
  elements (fst second) = elements (fst first) /\
  id (snd first) = "iosify" /\
  In (snd first) (elements (fst first)) /\
  (querySelector_id "iosify" p = None ->
     elements (fst first) = (elements p ++ [snd first])%list /\
     node (snd first) = nextNode p /\
     count_id "iosify" (fst first) = 1%nat) /\
  (forall e : Element,
     querySelector_id "iosify" p = Some e ->
     snd first = e /\
     elements (fst first) = elements p /\
     count_id "iosify" (fst first) = count_id "iosify" p) /\
  (forall n : nat,
     elements (fst (renders styles_iosify n (fst first))) = elements (fst first) /\
     snd (renders styles_iosify n (fst first)) = repeat (snd first) n).
Proof.
  intros first second.
  pose proof (querySelector_createDiv p) as Q. fold first in Q.
  assert (S2 : second =
               (mkPage (elements (fst first)) (nextNode (fst first))
                  (console (fst first) ++ [Some (snd first)])%list, snd first)).
  { subst second. now apply createDiv_found. }
  split; [now rewrite S2 |]. split; [now rewrite S2 |].
  pose proof (find_some _ _ Q) as [Hin Hid].
  apply String.eqb_eq in Hid.
  split; [exact Hid |]. split; [exact Hin |].
  split; [| split].
  - intros E. subst first. rewrite (createDiv_fresh p E). simpl.
    repeat split. unfold count_id, querySelector_id in *. simpl.
    rewrite filter_app, (filter_find_none _ _ E). reflexivity.
  - intros e E. subst first. rewrite (createDiv_found p E). simpl.
    repeat split.
  - intros n. destruct (renders_found n (fst first) Q) as (H1 & _ & H3).
    now split.
Qed.

End WithStyles.

End PortalFacts.

(* ================================================================== *)
(** ** throttle *)
(* ================================================================== *)

Module ThrottleFacts.

Import JS Throttle JSFacts.
Local Open Scope js_scope.

(** C7, as stated, fails: with the clock reading 0, 200 and 1100 at the
    three calls, [throttle(f, 1000)] runs [f] at 1100 only; the first call
    finds [0 - 0 >= 1000] false and is suppressed. *)
Lemma first_call_at_zero_suppressed :
  invokedAt (Fin 1000) [0; 200; 1100]%Q = [1100]%Q /\
  invokedAt (Fin 1000) [0; 200; 1100]%Q <> [0; 1100]%Q /\
  call record (Fin 1000) (Fin 0) 0%Q (throttle []) = throttle [].
Proof.
  vm_compute. repeat split. discriminate.
Qed.

Section WithCallback.

Variables (A W : Type) (callback : A -> W -> W).

(** A call with the closure's [lastCall] at [last]. *)
Lemma call_Fin (delay last now : Q) (args : A) (w : W) :
  let c := mkClosure (Fin last) w in
  ((delay <= now - last)%Q ->
     call callback (Fin delay) (Fin now) args c =
     mkClosure (Fin now) (callback args w)) /\
  ((now - last < delay)%Q ->
     call callback (Fin delay) (Fin now) args c = c).
Proof.
  intros c. unfold call, geb. cbn [lastCall world c sub neg add leb].
  split; intros H.
  - assert (E : Qleb delay (now + - last) = true) by (apply Qleb_true; lra).
    now rewrite E.
  - assert (E : Qleb delay (now + - last) = false) by (apply Qleb_false; lra).
    now rewrite E.
Qed.

End WithCallback.

(** C7, amended.  A call of the function [throttle] returns runs the
    callback exactly when the clock reading minus [lastCall] is at least the
    delay, where [lastCall] is 0 before any run and the reading of the last
    run after it.  So the first call runs the callback when the clock
    reading is at least the delay, and is suppressed when it is less; after a
    run at [last], calls are suppressed until the delay has elapsed since
    [last].  With the delay 1000 and calls at clock readings [T], [T + 200]
    and [T + 1100], [T >= 1000], the callback runs at [T] and [T + 1100]
    only. *)
Theorem throttle_calls (A W : Type) (callback : A -> W -> W) (delay : Q) :
  (forall (now : Q) (args : A) (w : W),
      ((delay <= now)%Q ->
         call callback (Fin delay) (Fin now) args (throttle w) =
         mkClosure (Fin now) (callback args w)) /\
      ((now < delay)%Q ->
         call callback (Fin delay) (Fin now) args (throttle w) = throttle w)) /\
  (forall (last now : Q) (args : A) (w : W),
      let afterRun := mkClosure (Fin last) w in
      ((now - last < delay)%Q ->
         call callback (Fin delay) (Fin now) args afterRun = afterRun) /\
      ((delay <= now - last)%Q ->
         call callback (Fin delay) (Fin now) args afterRun =
         mkClosure (Fin now) (callback args w))) /\
  (forall T : Q,
      (1000 <= T)%Q ->
      invokedAt (Fin 1000) [T; T + 200; T + 1100]%Q = [T; T + 1100]%Q).
Proof.
  split; [| split].
  - intros now args w. unfold throttle.
    destruct (call_Fin callback delay 0 now args w) as [H1 H2].
    split; intros H; [apply H1 | apply H2]; lra.
  - intros last now args w afterRun.
    destruct (call_Fin callback delay last now args w) as [H1 H2].
    split; assumption.
  - intros T HT. unfold invokedAt, calls, throttle. cbn [map fold_left fst snd].
    destruct (call_Fin record 1000 0 T T []) as [H1 _].
    rewrite H1 by lra. cbn [record app].
    destruct (call_Fin record 1000 T (T + 200) (T + 200)%Q [T]) as [_ H2].
    rewrite H2 by lra.
    destruct (call_Fin record 1000 T (T + 1100) (T + 1100)%Q [T]) as [H3 _].
    rewrite H3 by lra. reflexivity.
Qed.

End ThrottleFacts.

(* ================================================================== *)
(** ** Sessions: what sequences of pointer events do *)
(* ================================================================== *)

Module SheetSessions.

Import JS Sheet SheetLifecycle JSFacts.
Local Open Scope js_scope.

Lemma dragState_startDrag (now y : num) (s : State) :
  dragState (startDrag now y s) =
  mkDragState (Some y) None (Some now) true None (Fin 0) (Fin 0).
Proof.
  unfold startDrag, setTransition. now destruct (contentRef _).
Qed.

Lemma dragMove_idle (innerHeight now y : num) (s : State) :
  isDragging (dragState s) = false -> dragMove innerHeight now y s = s.
Proof. intros H. unfold dragMove. now rewrite H. Qed.

Lemma endDrag_idle (innerHeight : num) (s : State) :
  isDragging (dragState s) = false -> endDrag innerHeight s = s.
Proof. intros H. unfold endDrag. now rewrite H. Qed.

(** X1.  Move and release events that arrive while no session is active are
    ignored: whatever their number, order and coordinates, the state of the
    sheet is left as it was. *)
Theorem stray_events_ignored (innerHeight : num) (es : list Event) :
  forall s : State,
    isDragging (dragState s) = false ->
    Forall notPress es ->
    run innerHeight s es = s.
Proof.
  induction es as [| e es IH]; intros s Hd Hes; [reflexivity |].
  pose proof (Forall_inv Hes) as He.
  apply Forall_inv_tail in Hes.
  assert (E : handle innerHeight s e = s).
  { destruct e as [now y | now y |]; cbn [handle].
    - destruct He.
    - now apply dragMove_idle.
    - now apply endDrag_idle. }
  cbn [run fold_left]. rewrite E. now apply IH.
Qed.

(** X1 on the mounted sheet: two moves around a release change nothing. *)
Lemma stray_events_ignored_witness :
  let es := [Move (Fin 1016) (Fin 300); Release; Move (Fin 1032) (Fin 20)] in
  isDragging (dragState (mounted true)) = false /\
  Forall notPress es /\
  run (Fin 700) (mounted true) es = mounted true.
Proof.
  intros es.
  assert (Hd : isDragging (dragState (mounted true)) = false) by reflexivity.
  assert (Hes : Forall notPress es) by (repeat constructor).
  split; [exact Hd |]. split; [exact Hes |].
  exact (stray_events_ignored (Fin 700) (mounted true) Hd Hes).
Defined.

(** Every handler keeps the shape of the drag state. *)
Lemma handle_sessionShape (innerHeight : num) (s : State) (e : Event) :
  sessionShape (dragState s) -> sessionShape (dragState (handle innerHeight s e)).
Proof.
  intros H. destruct e as [now y | now y |]; cbn [handle].
  - rewrite dragState_startDrag. unfold sessionShape. cbn.
    repeat split; discriminate.
  - destruct (isDragging (dragState s)) eqn:Hd;
      [| now rewrite (dragMove_idle innerHeight now y s Hd)].
    destruct (startY (dragState s)) as [sY |] eqn:Hs.
    + rewrite (SheetDistance.dragState_dragMove innerHeight now y s Hd Hs).
      unfold sessionShape in *. rewrite Hd in H. cbn.
      destruct H as (_ & Ht & _).
      repeat split; try discriminate; exact Ht.
    + unfold dragMove. now rewrite Hd, Hs.
  - unfold endDrag.
    destruct (isDragging (dragState s)); [| exact H].
    destruct (startY (dragState s)); [| exact H].
    destruct (currentY (dragState s)); [| exact H].
    destruct (startTime (dragState s)); [| exact H].
    reflexivity.
Qed.

End SheetSessions.

(* ================================================================== *)
(** ** The elapsed time of a session *)
(* ================================================================== *)

Module SheetGestures.

Import JS Sheet SheetLifecycle JSFacts.
Local Open Scope js_scope.



End SheetGestures.

(* ================================================================== *)
(** ** After the release: the effect, the timers, repeated events *)
(* ================================================================== *)

Module SheetAftermath.

Import JS Sheet SheetLifecycle JSFacts.
Local Open Scope js_scope.

(** X7.  How a release settles, on a sheet whose content element is mounted
    and has no timer pending.  After the handler, the render with its effect
    on [isOpened], and the timer the handler queued, no timer is left and
    none has failed; the drag state is empty; the content has its transition
    back and sits off screen ([translateY(100%)]) after a Close and in place
    (no transform) otherwise.  The overlay is transparent and the scroll lock
    of the body is lifted exactly when an opened sheet was closed; the body
    is locked when a closed sheet was reopened; in every other case the
    overlay is opaque and the body is left as it was. *)
Theorem release_settles
    (innerHeight : num) (w : Window) (sY cY t0 : num) (st : Style) :
  active (sheet w) sY cY t0 ->
  contentRef (sheet w) = Some st ->
  timers (sheet w) = [] ->
  let decision := releaseDecision innerHeight sY cY (dragState (sheet w)) in
  let openedBefore := isOpened (sheet w) in
  exists final : Window,
    flushTimers (dispatch innerHeight w Release) = Some final /\
    dragState (sheet final) = emptyDragState /\
    timers (sheet final) = [] /\
    contentRef (sheet final) =
      Some (mkStyle
              match decision with
              | Close => translateY_100pct
              | Reopen | SnapBack => transform_empty
              end
              transition_ease) /\
    isOpened (sheet final) =
      match decision with
      | Close => false
      | Reopen => true
      | SnapBack => openedBefore
      end /\
    overlayOpacity (sheet final) =
      match decision, openedBefore with
      | Close, true => Fin 0
      | _, _ => Fin 1
      end /\
    bodyOverflow final =
      match decision, openedBefore with
      | Close, true => overflow_empty
      | Reopen, false => overflow_hidden
      | _, _ => bodyOverflow w
      end.
Proof.
  intros Ha Hc Ht decision openedBefore.
  unfold dispatch. cbn [handle].
  rewrite (SheetRelease.endDrag_active innerHeight Ha). fold decision.
  destruct w as [[d o opened c ts] body]. cbn in Hc, Ht, openedBefore. subst c ts.
  subst openedBefore.
  destruct decision, opened; eexists; (split; [reflexivity |]); cbn;
    repeat split.
Qed.

(** X7 on the fast pull of an opened sheet: the release closes it. *)
Lemma release_settles_witness :
  let w := mkWindow fastPull overflow_hidden in
  active (sheet w) (Fin 100) (Fin 500) (Fin 1000) /\
  contentRef (sheet w) = Some (mkStyle (translateY_px (Fin 400)) transition_unset) /\
  timers (sheet w) = [] /\
  exists final : Window,
    flushTimers (dispatch (Fin 700) w Release) = Some final /\
    contentRef (sheet final) = Some (mkStyle translateY_100pct transition_ease) /\
    overlayOpacity (sheet final) = Fin 0 /\
    bodyOverflow final = overflow_empty.
Proof.
  intros w.
  assert (Ha : active (sheet w) (Fin 100) (Fin 500) (Fin 1000))
    by (vm_compute; repeat split).
  assert (Hc : contentRef (sheet w) =
               Some (mkStyle (translateY_px (Fin 400)) transition_unset))
    by reflexivity.
  assert (Ht : timers (sheet w) = []) by reflexivity.
  repeat (split; [assumption |]).
  destruct (release_settles (Fin 700) w Ha Hc Ht)
    as (final & Hf & _ & _ & Hs & _ & Ho & Hb).
  exists final. split; [exact Hf |]. split; [exact Hs |]. split; assumption.
Defined.

(** Moves keep the session and its start position, whatever they carry. *)
Lemma moves_keep_start (innerHeight : num) (moves : list (num * num)) :
  forall (s : State) (sY : num),
    isDragging (dragState s) = true ->
    startY (dragState s) = Some sY ->
    let s' := run innerHeight s (map (fun m => Move (fst m) (snd m)) moves) in
    isDragging (dragState s') = true /\ startY (dragState s') = Some sY.
Proof.
  induction moves as [| [now y] moves IH]; intros s sY Hd Hs; cbn zeta.
  - auto.
  - cbn [map run fold_left handle fst snd].
    apply IH;
      rewrite (SheetDistance.dragState_dragMove innerHeight now y s Hd Hs);
      reflexivity.
Qed.

(** X8.  The handlers held by a closure created at the render that follows
    a press (as the listeners the component puts on the document are) read
    the drag state of that render.  Throughout the session the press
    started, [dragMove] run from this closure does exactly what [dragMove]
    run from the latest render does; [endDrag] run from it does nothing at
    all, since the closure's [currentY] is null: it never ends the
    session.  Run from the latest render, the two are the handlers
    themselves. *)
Theorem press_closure_handlers
    (innerHeight now0 y0 : num) (s0 : State) (moves : list (num * num)) :
  let seen := dragState (startDrag now0 y0 s0) in
  let s :=
    run innerHeight (startDrag now0 y0 s0)
      (map (fun m => Move (fst m) (snd m)) moves) in
  (forall now y : num,
      dragMoveFrom seen innerHeight now y s = dragMove innerHeight now y s) /\
  endDragFrom seen innerHeight s = s /\
  isDragging (dragState (endDragFrom seen innerHeight s)) = true /\
  (forall (now y : num) (s1 : State),
      dragMoveFrom (dragState s1) innerHeight now y s1 =
      dragMove innerHeight now y s1) /\
  (forall s1 : State,
      endDragFrom (dragState s1) innerHeight s1 = endDrag innerHeight s1).
Proof.
  intros seen s.
  pose proof (SheetSessions.dragState_startDrag now0 y0 s0) as E0.
  fold seen in E0.
  destruct (@moves_keep_start innerHeight moves (startDrag now0 y0 s0) y0)
    as [Hd Hs]; try (fold seen; rewrite E0; reflexivity).
  cbv zeta in Hd, Hs. fold s in Hd, Hs.
  assert (He : endDragFrom seen innerHeight s = s).
  { unfold endDragFrom. rewrite E0. reflexivity. }
  split; [| split; [exact He | split; [now rewrite He | split]]].
  - intros now y. unfold dragMoveFrom, dragMove.
    rewrite E0, Hd, Hs. reflexivity.
  - reflexivity.
  - reflexivity.
Qed.

(** Adding a zero changes no number. *)
Lemma add_zero_eqv (a c : num) : c == Fin 0 -> a + c == a.
Proof.
  destruct c as [z | | |]; cbn; try contradiction. intros Hz.
  destruct a; cbn; auto. rewrite Hz. ring.
Qed.

(** What a move event that passes the guard leaves outside the drag
    state. *)
Lemma dragMove_outside
    (innerHeight now y : num) (s : State) (sY : num) :
  isDragging (dragState s) = true ->
  startY (dragState s) = Some sY ->
  let dragDistance := y - or_else (Some sY) (Fin 0) in
  let s' := dragMove innerHeight now y s in
  overlayOpacity s' = dragOpacity innerHeight dragDistance /\
  isOpened s' = isOpened s /\
  timers s' = timers s /\
  contentRef s' =
    option_map
      (fun st =>
         mkStyle (translateY_px (adjustedDragDistance innerHeight dragDistance))
           (transition st))
      (contentRef s).
Proof.
  intros Hd Hs dragDistance s'. subst s' dragDistance.
  unfold dragMove. rewrite Hd, Hs. unfold setTransform.
  cbn [contentRef setOverlayOpacity setDragState].
  destruct (contentRef s) eqn:Ec; cbn; rewrite ?Ec; auto.
Qed.

(** X9.  A move event handled twice with the same clock reading and the
    same finite position (as when the same pointer move reaches a handler of
    the content and a listener of the document) leaves what handling it once
    leaves: the second pass adds a distance of 0 and rewrites every other
    field with the value it has. *)
Theorem repeated_move_adds_nothing
    (innerHeight now : num) (y : Q) (s : State) :
  let once := dragMove innerHeight now (Fin y) s in
  sameState (dragMove innerHeight now (Fin y) once) once.
Proof.
  intros once.
  assert (Hrefl : forall a : State, sameState a a).
  { intros a. unfold sameState. repeat split; apply eqv_refl. }
  destruct (isDragging (dragState s)) eqn:Hd;
    [| subst once; rewrite (SheetSessions.dragMove_idle innerHeight now (Fin y) s Hd);
       rewrite (SheetSessions.dragMove_idle innerHeight now (Fin y) s Hd);
       apply Hrefl].
  destruct (startY (dragState s)) as [sY |] eqn:Hs;
    [| assert (E : once = s) by (subst once; unfold dragMove; now rewrite Hd, Hs);
       rewrite !E; fold once; rewrite E; apply Hrefl].
  pose proof (SheetDistance.dragState_dragMove innerHeight now (Fin y) s Hd Hs) as E1.
  fold once in E1.
  assert (Hd1 : isDragging (dragState once) = true) by now rewrite E1.
  assert (Hs1 : startY (dragState once) = Some sY) by now rewrite E1.
  pose proof (SheetDistance.dragState_dragMove
                innerHeight now (Fin y) once Hd1 Hs1) as E2.
  destruct (dragMove_outside innerHeight now (Fin y) s Hd Hs) as (O1 & P1 & T1 & C1).
  destruct (dragMove_outside innerHeight now (Fin y) once Hd1 Hs1) as (O2 & P2 & T2 & C2).
  cbv zeta in O1, P1, T1, C1, O2, P2, T2, C2. fold once in O1, P1, T1, C1.
  unfold sameState. rewrite E2.
  cbn [startY currentY startTime isDragging direction totalDistance totalTime].
  rewrite E1.
  cbn [startY currentY startTime isDragging direction totalDistance totalTime].
  assert (Hor : or_else (Some (Fin y)) (Fin y) = Fin y).
  { unfold or_else. now destruct (truthy (Fin y)). }
  rewrite Hor, O2, O1, P2, T2, C2, C1.
  repeat split; try apply eqv_refl.
  - apply add_zero_eqv, abs_sub_self.
  - now destruct (contentRef s).
Qed.

(** X10.  A release handled twice (as when the pointer is released over the
    content and then leaves it) does what one release does: once the
    session is reset the guard of [endDrag] stops every further release, so
    the visibility flag is set at most once and at most one timer is
    queued. *)
Theorem repeated_release_is_one (innerHeight : num) (s : State) :
  endDrag innerHeight (endDrag innerHeight s) = endDrag innerHeight s.
Proof.
  destruct (isDragging (dragState s)) eqn:Hd;
    [| now rewrite !(SheetSessions.endDrag_idle innerHeight s Hd)].
  destruct (startY (dragState s)) as [sY |] eqn:Hs;
    [| assert (E : endDrag innerHeight s = s)
         by (unfold endDrag; now rewrite Hd, Hs);
       now rewrite !E].
  destruct (currentY (dragState s)) as [cY |] eqn:Hc;
    [| assert (E : endDrag innerHeight s = s)
         by (unfold endDrag; now rewrite Hd, Hs, Hc);
       now rewrite !E].
  destruct (startTime (dragState s)) as [t0 |] eqn:Ht;
    [| assert (E : endDrag innerHeight s = s)
         by (unfold endDrag; now rewrite Hd, Hs, Hc, Ht);
       now rewrite !E].
  apply SheetSessions.endDrag_idle.
  rewrite (@SheetRelease.endDrag_active innerHeight s sY cY t0);
    [reflexivity | repeat split; assumption].
Qed.

End SheetAftermath.

(* ================================================================== *)
(** ** The portal container over many requests *)
(* ================================================================== *)

Module PortalRequests.

Import Portal.
Local Open Scope string_scope.

Lemma filter_find_some (A : Type) (f : A -> bool) (l : list A) (x : A) :
  find f l = Some x -> (1 <= List.length (filter f l))%nat.
Proof.
  induction l as [| a l IH]; simpl; [discriminate |].
  destruct (f a); simpl; [lia | exact IH].
Qed.

Section WithStyles.

Variable styles_iosify : string.

Lemma count_id_createDiv (i : string) (p : Page) :
  count_id i (fst (createDiv styles_iosify p)) =
  if String.eqb i "iosify"
  then Nat.max 1 (count_id "iosify" p)
  else count_id i p.
Proof.
  destruct (querySelector_id "iosify" p) as [e |] eqn:E.
  - rewrite (PortalFacts.createDiv_found styles_iosify p E).
    unfold count_id. cbn [fst elements].
    destruct (String.eqb_spec i "iosify") as [-> | _]; [| reflexivity].
    pose proof (filter_find_some _ _ E). lia.
  - rewrite (PortalFacts.createDiv_fresh styles_iosify p E).
    unfold count_id. cbn [fst elements].
    rewrite filter_app, length_app. cbn [filter id].
    rewrite (String.eqb_sym "iosify" i).
    destruct (String.eqb_spec i "iosify") as [-> | _]; cbn [List.length].
    + unfold querySelector_id in E.
      rewrite (PortalFacts.filter_find_none _ _ E). reflexivity.
    + lia.
Qed.

(** X11.  However many times the container is requested, and whatever the
    page holds, requests never duplicate the container and never touch
    another element: after one or more requests the number of elements with
    id [iosify] is the number before, or 1 if there was none, the number of
    elements with any other id is unchanged, and the elements the page had
    are still there, in their order, before anything added. *)
Theorem requests_never_duplicate (n : nat) :
  forall p : Page,
    let p' := fst (renders styles_iosify (S n) p) in
    count_id "iosify" p' = Nat.max 1 (count_id "iosify" p) /\
    (forall i : string, i <> "iosify" -> count_id i p' = count_id i p) /\
    exists added : list Element,
      elements p' = (elements p ++ added)%list /\ (List.length added <= 1)%nat.
Proof.
  induction n as [| n IH]; intros p.
  - cbn [renders].
    pose proof (count_id_createDiv "iosify" p) as Hc.
    rewrite String.eqb_refl in Hc.
    assert (Ho : forall i, i <> "iosify" ->
                 count_id i (fst (createDiv styles_iosify p)) = count_id i p).
    { intros i Hi. rewrite count_id_createDiv.
      destruct (String.eqb_spec i "iosify"); [contradiction | reflexivity]. }
    assert (Ha : exists added,
               elements (fst (createDiv styles_iosify p)) =
               (elements p ++ added)%list /\ (List.length added <= 1)%nat).
    { destruct (querySelector_id "iosify" p) as [e |] eqn:E.
      - rewrite (PortalFacts.createDiv_found styles_iosify p E).
        exists []. cbn. now rewrite app_nil_r; auto.
      - rewrite (PortalFacts.createDiv_fresh styles_iosify p E).
        eexists [_]. cbn. auto. }
    destruct (createDiv styles_iosify p) as [p1 c]. cbn [fst] in *.
    auto.
  - change (renders styles_iosify (S (S n)) p)
      with (let (p1, container) := createDiv styles_iosify p in
            let (p2, rest) := renders styles_iosify (S n) p1 in
            (p2, container :: rest)).
    pose proof (count_id_createDiv "iosify" p) as Hc.
    rewrite String.eqb_refl in Hc.
    assert (Ho : forall i, i <> "iosify" ->
                 count_id i (fst (createDiv styles_iosify p)) = count_id i p).
    { intros i Hi. rewrite count_id_createDiv.
      destruct (String.eqb_spec i "iosify"); [contradiction | reflexivity]. }
    pose proof (PortalFacts.querySelector_createDiv styles_iosify p) as Hq.
    destruct (createDiv styles_iosify p) as [p1 c] eqn:E1. cbn [fst snd] in *.
    specialize (IH p1). cbv zeta in IH.
    destruct (PortalFacts.renders_found styles_iosify (S n) p1 Hq) as (He & _ & _).
    destruct (renders styles_iosify (S n) p1) as [p2 rest]. cbn [fst] in *.
    destruct IH as (I1 & I2 & _).
    split; [rewrite I1, Hc; lia |]. split.
    + intros i Hi. rewrite (I2 i Hi). now apply Ho.
    + rewrite He. clear - E1.
      destruct (querySelector_id "iosify" p) as [e |] eqn:E.
      * rewrite (PortalFacts.createDiv_found styles_iosify p E) in E1.
        injection E1 as <- _. exists []. cbn. now rewrite app_nil_r; auto.
      * rewrite (PortalFacts.createDiv_fresh styles_iosify p E) in E1.
        injection E1 as <- _. eexists [_]. cbn. auto.
Qed.

(** X12.  Every request writes one entry to the console, and only that: [n]
    requests add [n] entries.  The first entry is what the query found on
    the page before the request ([null] when the container did not exist),
    and every later one is the container. *)
Theorem requests_log_each_call (n : nat) (p : Page) :
  console (fst (renders styles_iosify (S n) p)) =
  (console p ++
   querySelector_id "iosify" p ::
   repeat (Some (snd (createDiv styles_iosify p))) n)%list.
Proof.
  assert (G : forall (m : nat) (q : Page) (e : Element),
             querySelector_id "iosify" q = Some e ->
             console (fst (renders styles_iosify m q)) =
             (console q ++ repeat (Some e) m)%list).
  { induction m as [| m IH]; intros q e E.
    - cbn. now rewrite app_nil_r.
    - cbn [renders]. rewrite (PortalFacts.createDiv_found styles_iosify q E).
      specialize (IH (mkPage (elements q) (nextNode q) (console q ++ [Some e])%list) e E).
      destruct (renders styles_iosify m _) as [p2 rest]. cbn [fst] in *.
      rewrite IH. cbn [console repeat]. now rewrite <- app_assoc. }
  cbn [renders].
  pose proof (PortalFacts.querySelector_createDiv styles_iosify p) as Hq.
  assert (Hc : console (fst (createDiv styles_iosify p)) =
               (console p ++ [querySelector_id "iosify" p])%list).
  { destruct (querySelector_id "iosify" p) as [e |] eqn:E.
    - now rewrite (PortalFacts.createDiv_found styles_iosify p E).
    - now rewrite (PortalFacts.createDiv_fresh styles_iosify p E). }
  destruct (createDiv styles_iosify p) as [p1 c]. cbn [fst snd] in *.
  specialize (G n p1 c Hq).
  destruct (renders styles_iosify n p1) as [p2 rest]. cbn [fst] in *.
  rewrite G, Hc. now rewrite <- app_assoc.
Qed.

End WithStyles.

End PortalRequests.

(* ================================================================== *)
(** ** throttle over a sequence of calls *)
(* ================================================================== *)

Module ThrottleCalls.

Import JS Throttle ThrottleTrace JSFacts.
Local Open Scope js_scope.

Lemma subsequence_skip (A : Type) (l m : list A) (y : A) :
  subsequence l m -> subsequence l (y :: m).
Proof. destruct l; cbn; auto. Qed.

(** The calls, one at a time. *)
Lemma invoked_cons (delay : num) (c : Closure (list Q)) (t : Q) (times : list Q) :
  calls record delay c (map (fun t => (Fin t, t)) (t :: times)) =
  calls record delay (call record delay (Fin t) t c)
    (map (fun t => (Fin t, t)) times).
Proof. reflexivity. Qed.

(** From a closure that last ran at [last], with [log] written so far: the
    calls append to the log readings spaced by the delay, taken in order
    from the readings of the calls. *)
Lemma calls_record_spaced (delay : Q) (times : list Q) :
  forall (last : Q) (log : list Q),
  exists tail : list Q,
    world (calls record (Fin delay) (mkClosure (Fin last) log)
             (map (fun t => (Fin t, t)) times)) = (log ++ tail)%list /\
    spaced delay last tail /\
    subsequence tail times.
Proof.
  induction times as [| t times IH]; intros last log.
  - exists []. cbn. now rewrite app_nil_r.
  - rewrite invoked_cons.
    destruct (ThrottleFacts.call_Fin record delay last t t log) as [Hrun Hskip].
    cbv zeta in Hrun, Hskip.
    destruct (Qlt_le_dec (t - last) delay) as [Hlt | Hle].
    + rewrite (Hskip Hlt).
      destruct (IH last log) as (tail & Hw & Hs & Hsub).
      exists tail. repeat split; try assumption.
      now apply subsequence_skip.
    + rewrite (Hrun Hle). change (record t log) with (log ++ [t])%list.
      destruct (IH t (log ++ [t])%list) as (tail & Hw & Hs & Hsub).
      exists (t :: tail). split; [| split].
      * rewrite Hw. now rewrite <- app_assoc.
      * cbn. auto.
      * cbn. auto.
Qed.

(** X13.  The callback never runs twice within the delay: for every
    sequence of calls, at any clock readings and in any order, each reading
    at which the callback ran is at least the delay after the one before it,
    and the first one is at least the delay after 0. *)
Theorem throttle_runs_spaced (delay : Q) (times : list Q) :
  spaced delay 0 (invokedAt (Fin delay) times).
Proof.
  unfold invokedAt, throttle.
  destruct (calls_record_spaced delay times 0 []) as (tail & Hw & Hs & _).
  rewrite Hw. exact Hs.
Qed.

(** A call runs the callback with its own arguments or leaves the world
    alone. *)
Lemma calls_record_subsequence (delay : num) (times : list Q) :
  forall c : Closure (list Q),
  exists tail : list Q,
    world (calls record delay c (map (fun t => (Fin t, t)) times)) =
    (world c ++ tail)%list /\
    subsequence tail times.
Proof.
  induction times as [| t times IH]; intros c.
  - exists []. cbn. now rewrite app_nil_r.
  - rewrite invoked_cons.
    assert (E : call record delay (Fin t) t c =
                if (Fin t - lastCall c) >=? delay
                then mkClosure (Fin t) (record t (world c))
                else c) by reflexivity.
    rewrite E. clear E.
    destruct ((Fin t - lastCall c) >=? delay).
    + destruct (IH (mkClosure (Fin t) (record t (world c)))) as (tail & Hw & Hsub).
      exists (t :: tail). split.
      * rewrite Hw. cbn [world]. unfold record. now rewrite <- app_assoc.
      * cbn. auto.
    + destruct (IH c) as (tail & Hw & Hsub).
      exists tail. split; [exact Hw | now apply subsequence_skip].
Qed.

(** X14.  A suppressed call is dropped for good: whatever the delay (finite
    or not), the callback runs only for calls that were made, once each at
    most, in the order of the calls and with the arguments of its own call;
    nothing is deferred or replayed later. *)
Theorem throttle_runs_subsequence (delay : num) (times : list Q) :
  subsequence (invokedAt delay times) times /\
  (List.length (invokedAt delay times) <= List.length times)%nat.
Proof.
  unfold invokedAt.
  destruct (calls_record_subsequence delay times (throttle [])) as (tail & Hw & Hs).
  rewrite Hw. cbn [world throttle app].
  split; [exact Hs |].
  clear Hw. revert tail Hs.
  induction times as [| t times IH]; intros [| x tail] Hs; cbn in *;
    try lia; try contradiction.
  destruct Hs as [[_ Hs] | Hs].
  - specialize (IH tail Hs). lia.
  - specialize (IH (x :: tail) Hs). cbn in IH. lia.
Qed.

(** X15.  With a delay of 0 or less nothing is throttled as long as the
    clock does not go back: every call at readings that start at 0 or later
    and never decrease runs the callback. *)
Theorem throttle_nonpositive_delay (delay : Q) (times : list Q) :
  (delay <= 0)%Q ->
  ascending 0 times ->
  invokedAt (Fin delay) times = times.
Proof.
  intros Hd Hasc. unfold invokedAt, throttle.
  assert (G : forall (last : Q) (log : list Q),
             ascending last times ->
             world (calls record (Fin delay) (mkClosure (Fin last) log)
                      (map (fun t => (Fin t, t)) times)) = (log ++ times)%list).
  { clear Hasc. induction times as [| t times IH]; intros last log Ha.
    - cbn. now rewrite app_nil_r.
    - destruct Ha as [Hle Ha]. rewrite invoked_cons.
      destruct (ThrottleFacts.call_Fin record delay last t t log) as [Hrun _].
      cbv zeta in Hrun. rewrite Hrun by lra.
      change (record t log) with (log ++ [t])%list.
      rewrite (IH t _ Ha). now rewrite <- app_assoc. }
  exact (G 0%Q [] Hasc).
Qed.

(** X15 with a delay of 0 and three calls, two of them at one reading. *)
Lemma throttle_nonpositive_delay_witness :
  (0 <= 0)%Q /\
  ascending 0 [5; 5; 9]%Q /\
  invokedAt (Fin 0) [5; 5; 9]%Q = [5; 5; 9]%Q.
Proof.
  assert (Hd : (0 <= 0)%Q) by apply Qle_refl.
  assert (Ha : ascending 0 [5; 5; 9]%Q).
  { cbn. repeat split; unfold Qle; cbn; lia. }
  split; [exact Hd |]. split; [exact Ha |].
  exact (throttle_nonpositive_delay [5; 5; 9]%Q Hd Ha).
Defined.

(** X16.  A delay that is [NaN] (what a missing or non-numeric delay
    compares as) or [+Infinity] disables the callback: the comparison
    [now - lastCall >= delay] is false at every call, so the callback never
    runs. *)
Theorem throttle_nan_delay_never_runs (times : list Q) :
  invokedAt NaN times = [] /\ invokedAt PInf times = [].
Proof.
  unfold invokedAt, throttle.
  assert (G : forall delay : num,
             delay = NaN \/ delay = PInf ->
             forall c : Closure (list Q),
               (exists last : Q, lastCall c = Fin last) ->
               calls record delay c (map (fun t => (Fin t, t)) times) = c).
  { intros delay Hd. induction times as [| t times IH]; intros c (last & Hl).
    - reflexivity.
    - rewrite invoked_cons.
      assert (E : call record delay (Fin t) t c = c).
      { unfold call. rewrite Hl. destruct Hd as [-> | ->]; reflexivity. }
      rewrite E. apply IH. now exists last. }
  split; rewrite G; try reflexivity; auto; now exists 0%Q.
Qed.

End ThrottleCalls.

(* ================================================================== *)
(** ** The component under every event that reaches it *)
(* ================================================================== *)

Module SheetComponentFacts.

Import JS Sheet SheetLifecycle SheetComponent JSFacts.
Local Open Scope js_scope.

Lemma dragState_setTransition (t : Transition) (s : State) :
  dragState (setTransition t s) = dragState s.
Proof. unfold setTransition. now destruct (contentRef s). Qed.

Lemma dragState_setTransform (t : Transform) (s : State) :
  dragState (setTransform t s) = dragState s.
Proof. unfold setTransform. now destruct (contentRef s). Qed.



Lemma dragState_openedEffect (w : Window) :
  dragState (sheet (openedEffect w)) = dragState (sheet w).
Proof.
  unfold openedEffect.
  destruct (isOpened (sheet w)); cbn [sheet];
    now rewrite dragState_setTransition, dragState_setTransform.
Qed.


(** A render changes neither the drag state nor the visibility flag. *)
Lemma drag_render (before c : Component) : drag (render before c) = drag c.
Proof.
  unfold render, drag, commit. cbn [window].
  destruct (Bool.eqb _ _); [reflexivity | apply dragState_openedEffect].
Qed.


Lemma drag_onSheet (f : State -> State) (c : Component) :
  drag (onSheet f c) = dragState (f (sheet (window c))).
Proof. reflexivity. Qed.

(** [dragMove] from a closure whose guard passes. *)
Lemma dragState_dragMoveFrom
    (seen : DragState) (innerHeight now y : num) (s : State) (sY : num) :
  isDragging seen = true ->
  startY seen = Some sY ->
  dragState (dragMoveFrom seen innerHeight now y s) =
  mkDragState
    (startY (dragState s)) (Some y) (startTime (dragState s))
    (isDragging (dragState s))
    (Some (if (y - or_else (Some sY) (Fin 0)) >? Fin 0 then down else up))
    (totalDistance (dragState s) + abs (y - or_else (currentY (dragState s)) y))
    ((now - or_else (startTime (dragState s)) now) / Fin 1000).
Proof.
  intros Hd Hs. unfold dragMoveFrom. rewrite Hd, Hs.
  unfold setTransform. now destruct (contentRef _).
Qed.

(** [endDrag] from a closure with no current position does nothing. *)
Lemma endDragFrom_pressed (seen : DragState) (innerHeight : num) (s : State) :
  currentY seen = None -> endDragFrom seen innerHeight s = s.
Proof.
  intros H. unfold endDragFrom. rewrite H.
  destruct (isDragging seen); [| reflexivity].
  now destruct (startY seen).
Qed.

(** The drag state after a step, event by event. *)
Lemma drag_step_content (innerHeight : num) (c : Component) (ev : Event) :
  drag (step innerHeight c (OnContent ev)) =
  dragState (handle innerHeight (sheet (window c)) ev).
Proof. unfold step. now rewrite drag_render. Qed.

Lemma docListeners_step (innerHeight : num) (c : Component) (e : DomEvent) :
  docListeners (step innerHeight c e) =
  if Bool.eqb (isDragging (drag c)) (isDragging (drag (step innerHeight c e)))
  then docListeners (deliver innerHeight c e)
  else if isDragging (drag (step innerHeight c e))
       then Some (drag (step innerHeight c e))
       else None.
Proof.
  unfold step at 1. unfold render. cbn [docListeners].
  unfold step. now rewrite drag_render.
Qed.

(** Every step keeps a component well formed. *)
Lemma step_wellFormed (innerHeight : num) (c : Component) (e : DomEvent) :
  wellFormed c -> wellFormed (step innerHeight c e).
Proof.
  intros [Hshape Hl].
  (* the drag state after the handler *)
  assert (Hd : sessionShape (drag (step innerHeight c e)) /\
               (isDragging (drag (step innerHeight c e)) = true ->
                isDragging (drag c) = false ->
                pressed (drag (step innerHeight c e))) /\
               (forall seen, docListeners (deliver innerHeight c e) = Some seen ->
                  docListeners c = Some seen)).
  { unfold step. rewrite drag_render.
    assert (Hsame : forall f seen,
               docListeners (onSheet f c) = Some seen ->
               docListeners c = Some seen) by (intros f seen E; exact E).
    destruct e as [ev | now y | | b]; cbn [deliver].
    - rewrite drag_onSheet. split; [now apply SheetSessions.handle_sessionShape |].
      split; [| apply Hsame].
      intros Hon Hoff. destruct ev as [now y | now y |]; cbn [handle] in *.
      + rewrite SheetSessions.dragState_startDrag. repeat split. discriminate.
      + rewrite (SheetSessions.dragMove_idle innerHeight now y _ Hoff) in Hon.
        unfold drag in Hoff. congruence.
      + rewrite (SheetSessions.endDrag_idle innerHeight _ Hoff) in Hon.
        unfold drag in Hoff. congruence.
    - destruct (docListeners c) as [seen |] eqn:El.
      + destruct (Hl seen eq_refl) as (Hon & Hp & Hs & Hc).
        destruct (startY seen) as [sY |] eqn:Es; [| contradiction].
        rewrite drag_onSheet.
        rewrite (dragState_dragMoveFrom seen innerHeight now y _ Hp Es).
        fold (drag c).
        split; [| split; [| intros s0 E0; cbn [onSheet docListeners] in E0;
                                   congruence]].
        * unfold sessionShape in *. rewrite Hon in Hshape. cbn. rewrite Hon.
          destruct Hshape as (H1 & H2 & _).
          repeat split; try assumption; discriminate.
        * intros _ Hoff. congruence.
      + split; [exact Hshape |]. split; [congruence | congruence].
    - destruct (docListeners c) as [seen |] eqn:El.
      + destruct (Hl seen eq_refl) as (Hon & Hp & Hs & Hc).
        unfold drag. cbn [window onSheet sheet docListeners].
        rewrite (endDragFrom_pressed seen innerHeight _ Hc).
        split; [exact Hshape |]. split; [| discriminate].
        intros H1 H2. unfold drag in H2. congruence.
      + split; [exact Hshape |]. split; [congruence | congruence].
    - rewrite drag_onSheet. cbn [setIsOpened dragState]. fold (drag c).
      split; [exact Hshape |]. split; [congruence | apply Hsame]. }
  destruct Hd as (Hs' & Hpress & Hkeep).
  split; [exact Hs' |].
  intros seen. rewrite docListeners_step.
  destruct (isDragging (drag c)) eqn:Hb,
    (isDragging (drag (step innerHeight c e))) eqn:Ha;
    cbn [Bool.eqb].
  - intros E. split; [reflexivity |]. exact (proj2 (Hl seen (Hkeep seen E))).
  - discriminate.
  - intros [= <-]. split; [reflexivity |]. now apply Hpress.
  - intros E. specialize (Hl seen (Hkeep seen E)). destruct Hl. congruence.
Qed.

Lemma mount_wellFormed (opened : bool) (body : Overflow) :
  wellFormed (mount opened body).
Proof.
  split.
  - unfold drag, mount. cbn [window]. rewrite dragState_openedEffect.
    reflexivity.
  - discriminate.
Qed.

Lemma play_wellFormed (innerHeight : num) (es : list DomEvent) :
  forall c : Component, wellFormed c -> wellFormed (play innerHeight c es).
Proof.
  induction es as [| e es IH]; intros c Hc; [exact Hc |].
  apply (IH (step innerHeight c e)). now apply step_wellFormed.
Qed.



(** The drag state after a step of each kind, on a well-formed component. *)
Lemma drag_step_documentMove
    (innerHeight now y : num) (c : Component) :
  wellFormed c ->
  drag (step innerHeight c (DocumentMouseMove now y)) = drag c \/
  (isDragging (drag c) = true /\
   exists dir : Direction,
     drag (step innerHeight c (DocumentMouseMove now y)) =
     mkDragState
       (startY (drag c)) (Some y) (startTime (drag c)) true (Some dir)
       (totalDistance (drag c) + abs (y - or_else (currentY (drag c)) y))
       ((now - or_else (startTime (drag c)) now) / Fin 1000)).
Proof.
  intros [_ Hl]. unfold step. rewrite drag_render. cbn [deliver].
  destruct (docListeners c) as [seen |] eqn:El; [| now left].
  destruct (Hl seen eq_refl) as (Hon & Hp & Hs & _).
  destruct (startY seen) as [sY |] eqn:Es; [| contradiction].
  right. split; [exact Hon |]. eexists.
  rewrite drag_onSheet, (dragState_dragMoveFrom seen innerHeight now y _ Hp Es).
  fold (drag c). rewrite Hon. reflexivity.
Qed.

Lemma drag_step_documentUp (innerHeight : num) (c : Component) :
  wellFormed c ->
  drag (step innerHeight c DocumentMouseUp) = drag c.
Proof.
  intros [_ Hl]. unfold step. rewrite drag_render. cbn [deliver].
  destruct (docListeners c) as [seen |] eqn:El; [| reflexivity].
  destruct (Hl seen eq_refl) as (_ & _ & _ & Hc).
  unfold drag. cbn [window onSheet sheet].
  now rewrite (endDragFrom_pressed seen innerHeight _ Hc).
Qed.

Lemma drag_step_setIsOpened (innerHeight : num) (c : Component) (b : bool) :
  drag (step innerHeight c (SetIsOpened b)) = drag c.
Proof. unfold step. now rewrite drag_render. Qed.








(** A move adds a finite non-negative amount to a measured distance. *)
Lemma measured_add (s : State) (q : Q) :
  measured s ->
  exists td td' : Q,
    totalDistance (dragState s) = Fin td /\
    totalDistance (dragState s) +
      abs (Fin q - or_else (currentY (dragState s)) (Fin q)) = Fin td' /\
    (0 <= td)%Q /\ (td <= td')%Q.
Proof.
  intros [(td & Htd & Hpos) Hc].
  assert (Hprev : exists c : Q,
             or_else (currentY (dragState s)) (Fin q) = Fin c).
  { destruct (currentY (dragState s)) as [c |] eqn:Ec; [| now exists q].
    specialize (Hc c eq_refl). destruct c as [c | | |]; try contradiction.
    unfold or_else. destruct (truthy (Fin c)); [now exists c | now exists q]. }
  destruct Hprev as (c & ->). rewrite Htd. cbn [sub neg add abs].
  exists td. eexists. repeat split; try eassumption.
  pose proof (Qabs_nonneg (q + - c)). lra.
Qed.

Lemma measured_dragState (s s' : State) :
  dragState s' = dragState s -> measured s -> measured s'.
Proof. unfold measured. now intros ->. Qed.

(** What a step does to the accumulated distance of a measured sheet: a
    pointer move leaves it or adds to it. *)
Lemma step_move_distance (innerHeight : num) (c : Component) (e : DomEvent) :
  wellFormed c ->
  measured (sheet (window c)) ->
  pointerMove e ->
  finiteDomEvent e ->
  exists td td' : Q,
    totalDistance (drag c) = Fin td /\
    totalDistance (drag (step innerHeight c e)) = Fin td' /\
    (0 <= td)%Q /\ (td <= td')%Q /\
    (forall p : num, currentY (drag (step innerHeight c e)) = Some p -> finite p).
Proof.
  intros Hw Hm He Hf.
  destruct e as [[now y | now y |] | now y | | b]; try destruct He;
    cbn in Hf; destruct y as [q | | |]; try contradiction.
  - destruct (measured_add q Hm) as (td & td' & Htd & Htd' & Hpos & Hle).
    rewrite drag_step_content. cbn [handle]. unfold drag.
    destruct (isDragging (dragState (sheet (window c)))) eqn:Hd.
    + destruct (startY (dragState (sheet (window c)))) as [sY |] eqn:Hs.
      * rewrite (SheetDistance.dragState_dragMove innerHeight now (Fin q) _ Hd Hs).
        exists td, td'. cbn [totalDistance currentY].
        repeat split; try assumption. intros p [= <-]. exact I.
      * exists td, td. unfold dragMove. rewrite Hd, Hs.
        repeat split; try assumption; try apply Qle_refl. exact (proj2 Hm).
    + rewrite (SheetSessions.dragMove_idle innerHeight now (Fin q) _ Hd).
      exists td, td. repeat split; try assumption; try apply Qle_refl.
      exact (proj2 Hm).
  - destruct (measured_add q Hm) as (td & td' & Htd & Htd' & Hpos & Hle).
    destruct (drag_step_documentMove innerHeight now (Fin q) Hw) as [E | (_ & dir & E)];
      rewrite E.
    + exists td, td. repeat split; try assumption; try apply Qle_refl.
      exact (proj2 Hm).
    + exists td, td'. cbn [totalDistance currentY].
      repeat split; try assumption. intros p [= <-]. exact I.
Qed.

(** Every step keeps the sheet measured, with finite coordinates. *)
Lemma step_measured (innerHeight : num) (c : Component) (e : DomEvent) :
  wellFormed c ->
  finiteDomEvent e ->
  measured (sheet (window c)) ->
  measured (sheet (window (step innerHeight c e))).
Proof.
  intros Hw Hf Hm.
  destruct e as [ev | now y | | b].
  - apply (@measured_dragState (handle innerHeight (sheet (window c)) ev)
             (sheet (window (step innerHeight c (OnContent ev))))).
    + apply drag_step_content.
    + now apply SheetDistance.handle_measured.
  - destruct (@step_move_distance innerHeight c (DocumentMouseMove now y) Hw Hm I Hf)
      as (td & td' & _ & Htd' & Hpos & Hle & Hc).
    split; [| exact Hc].
    exists td'. split; [exact Htd' | lra].
  - apply (@measured_dragState (sheet (window c))
             (sheet (window (step innerHeight c DocumentMouseUp))));
      [| exact Hm].
    apply (drag_step_documentUp innerHeight Hw).
  - apply (@measured_dragState (sheet (window c))
             (sheet (window (step innerHeight c (SetIsOpened b)))));
      [| exact Hm].
    apply drag_step_setIsOpened.
Qed.

Lemma play_measured (innerHeight : num) (es : list DomEvent) :
  forall c : Component,
    wellFormed c ->
    Forall finiteDomEvent es ->
    measured (sheet (window c)) ->
    measured (sheet (window (play innerHeight c es))).
Proof.
  induction es as [| e es IH]; intros c Hw Hes Hm; [exact Hm |].
  apply (IH (step innerHeight c e)).
  - now apply step_wellFormed.
  - exact (Forall_inv_tail Hes).
  - apply step_measured; [exact Hw | exact (Forall_inv Hes) | exact Hm].
Qed.

Lemma mount_measured (opened : bool) (body : Overflow) :
  measured (sheet (window (mount opened body))).
Proof.
  apply (@measured_dragState (mounted opened)
           (sheet (window (mount opened body)))).
  - apply dragState_openedEffect.
  - apply SheetDistance.mounted_measured.
Qed.

(** X3.  With pointer coordinates that are finite numbers, whatever events
    reach a mounted sheet, the accumulated distance is never [NaN] and never
    negative, and no pointer move, on the content or through the listener of
    the document, makes it smaller. *)
Theorem totalDistance_never_shrinks
    (innerHeight : num) (opened : bool) (body : Overflow)
    (es : list DomEvent) (m : DomEvent) :
  Forall finiteDomEvent es ->
  pointerMove m ->
  finiteDomEvent m ->
  let c := play innerHeight (mount opened body) es in
  totalDistance (drag c) <> NaN /\
  Fin 0 <= totalDistance (drag c) /\
  totalDistance (drag c) <= totalDistance (drag (step innerHeight c m)).
Proof.
  intros Hes Hm Hf c.
  pose proof (play_wellFormed innerHeight es (mount_wellFormed opened body)) as Hw.
  pose proof (@play_measured innerHeight es (mount opened body)
                (mount_wellFormed opened body) Hes (mount_measured opened body))
    as Hmeas.
  fold c in Hw, Hmeas.
  destruct (@step_move_distance innerHeight c m Hw Hmeas Hm Hf)
    as (td & td' & Htd & Htd' & Hpos & Hle & _).
  rewrite Htd, Htd'. cbn [leb].
  repeat split; [discriminate | now apply Qleb_true | now apply Qleb_true].
Qed.

(** X3 on a drag down to 300 followed by a move back up to 250 that reaches
    the document. *)
Lemma totalDistance_never_shrinks_witness :
  let es :=
    [OnContent (Press (Fin 1000) (Fin 100));
     OnContent (Move (Fin 1016) (Fin 300))] in
  let m := DocumentMouseMove (Fin 1032) (Fin 250) in
  let c := play (Fin 700) (mount true overflow_empty) es in
  Forall finiteDomEvent es /\ pointerMove m /\ finiteDomEvent m /\
  totalDistance (drag c) <= totalDistance (drag (step (Fin 700) c m)).
Proof.
  intros es m c.
  assert (Hes : Forall finiteDomEvent es) by (repeat constructor).
  assert (Hm : pointerMove m) by exact I.
  assert (Hf : finiteDomEvent m) by exact I.
  repeat (split; [assumption |]).
  exact (proj2 (proj2 (@totalDistance_never_shrinks
                         (Fin 700) true overflow_empty es m Hes Hm Hf))).
Defined.








End SheetComponentFacts.
